(** * Verification of the CDS teaching notebooks

    The repository holds two Jupyter notebooks:

    - [Part_04.ipynb], the "functions" tutorial, which defines
      [get_counts], [double_list], two [sorted] calls with lambda keys and
      the module [fibo.py] ([fib], [fib2]);
    - the ensemble-methods notebook, straight-line cells calling pandas,
      numpy, scikit-learn and matplotlib.

    Python code is embedded shallowly: a computation is a function from a
    runtime state to an outcome (a value or a raised exception, each with
    the state reached), lists live in a store indexed by references so that
    aliasing and in-place mutation are visible, and dictionaries keep their
    insertion order. *)

From Stdlib Require Import ZArith Lia QArith Qround Floats.
From Equations Require Import Equations.
From stdpp Require Import gmap strings list fin_maps sorting.

Local Open Scope Z_scope.

(** ** The Python runtime: exceptions, outcomes, stateful computations *)

Module Py.

(** An exception object: its class name and its argument. *)
Record exn := Exn { exn_class : string; exn_arg : string }.

(** Running a statement either yields a value or raises; in both cases the
    effects performed so far on the state persist. *)
Inductive outcome (S A : Type) :=
| Ok (a : A) (s : S)
| Raise (e : exn) (s : S).
Arguments Ok {S A} a s.
Arguments Raise {S A} e s.

Definition py (S A : Type) : Type := S → outcome S A.

Definition ret {S A} (a : A) : py S A := λ s, Ok a s.
Definition raise {S A} (e : exn) : py S A := λ s, Raise e s.
Definition bind {S A B} (m : py S A) (k : A → py S B) : py S B :=
  λ s, match m s with
       | Ok a s' => k a s'
       | Raise e s' => Raise e s'
       end.
(** The state reached, whatever the outcome. *)
Definition final {S A} (o : outcome S A) : S :=
  match o with Ok _ s => s | Raise _ s => s end.

(** [for x in xs: body x] *)
Fixpoint for_each {S A} (xs : list A) (body : A → py S unit) : py S unit :=
  match xs with
  | [] => ret tt
  | x :: xs' => bind (body x) (λ _, for_each xs' body)
  end.

(** [range(n)] for a non-negative [n]. *)
Definition range (n : nat) : list nat := seq 0 n.

End Py.

Import Py.

Notation "'let*' x := m 'in' k" := (Py.bind m (λ x, k))
  (at level 10, x name, m at level 100, k at level 200,
   format "'[v' 'let*' x  :=  m  'in' '/' k ']'").

(** ** Lists as mutable objects *)

Module Store.

(** A reference to a list object. *)
Definition ref := nat.

Section ops.
Context {A : Type}.

Definition IndexError : exn := Exn "IndexError" "list index out of range".
Definition SystemError : exn := Exn "SystemError" "dangling reference".

(** Dereferencing: a Python name always denotes a live object; the
    failure branch exists only because the store is a partial map. *)
Definition deref (l : ref) : py (gmap ref (list A)) (list A) :=
  λ h, match h !! l with
       | Some xs => Ok xs h
       | None => Raise SystemError h
       end.

(** [len(l)] *)
Definition len (l : ref) : py (gmap ref (list A)) nat :=
  let* xs := deref l in ret (length xs).

(** [l[pos]] *)
Definition getitem (l : ref) (pos : nat) : py (gmap ref (list A)) A :=
  let* xs := deref l in
  match xs !! pos with
  | Some x => ret x
  | None => raise IndexError
  end.

(** [l[pos] = v]: the object is updated in place. *)
Definition setitem (l : ref) (pos : nat) (v : A) : py (gmap ref (list A)) unit :=
  let* xs := deref l in
  if decide (pos < length xs)%nat
  then (λ h, Ok tt (<[l := <[pos := v]> xs]> h))
  else raise IndexError.

(** A new list object; its reference is fresh. *)
Definition alloc (xs : list A) : py (gmap ref (list A)) ref :=
  λ h, let l := fresh (dom h) in Ok l (<[l := xs]> h).

End ops.

End Store.

(** ** Dictionaries

    A Python 3.7+ [dict] iterates in insertion order, and assigning to an
    existing key keeps the key's position. The order is observable through
    [items()], so a dictionary is a list of bindings, oldest first. *)

Module Dict.

Section ops.
Context {K V : Type} `{EqDecision K}.

Definition KeyError : exn := Exn "KeyError" "key not found".

Fixpoint lookup (d : list (K * V)) (k : K) : option V :=
  match d with
  | [] => None
  | (k', v) :: d' => if decide (k = k') then Some v else lookup d' k
  end.

(** [k in d] *)
Definition contains (d : list (K * V)) (k : K) : bool :=
  match lookup d k with Some _ => true | None => false end.

(** [d[k]] *)
Definition getitem {S} (d : list (K * V)) (k : K) : py S V :=
  match lookup d k with
  | Some v => ret v
  | None => raise KeyError
  end.

(** [d[k] = v] *)
Fixpoint setitem (d : list (K * V)) (k : K) (v : V) : list (K * V) :=
  match d with
  | [] => [(k, v)]
  | (k', v') :: d' =>
      if decide (k = k') then (k', v) :: d' else (k', v') :: setitem d' k v
  end.

(** [d.items()] *)
Definition items (d : list (K * V)) : list (K * V) := d.

End ops.

End Dict.

(** ** The functions notebook, [Part_04.ipynb] *)

Module Part04.

Import Store.

(** *** [get_counts] *)

(** The elements of the list become dictionary keys: they are values of a
    type [K] with a decidable equality (hashable values). *)
Section get_counts.
Context {K : Type} `{EqDecision K}.

(** One iteration of [for x in s]. *)
Definition count_step {S} (counts : list (K * Z)) (x : K) : py S (list (K * Z)) :=
  if Dict.contains counts x
  then let* c := Dict.getitem counts x in
       ret (Dict.setitem counts x (c + 1))
  else ret (Dict.setitem counts x 1).

Fixpoint count_loop {S} (s : list K) (counts : list (K * Z)) : py S (list (K * Z)) :=
  match s with
  | [] => ret counts
  | x :: s' => let* counts' := count_step counts x in count_loop s' counts'
  end.

(** The argument is a reference to the caller's list. *)
Definition get_counts (s : ref) : py (gmap ref (list K)) (list (K * Z)) :=
  let* xs := deref s in
  let* counts := count_loop xs [] in
  let pairs := Dict.items counts in
  ret pairs.

(** Reference notions used to state what [get_counts] returns:
    [s.count(x)] and [s.index(x)]. *)
Fixpoint count_of (x : K) (s : list K) : Z :=
  match s with
  | [] => 0
  | y :: s' => (if decide (x = y) then 1 else 0) + count_of x s'
  end.

Fixpoint index_of (x : K) (s : list K) : nat :=
  match s with
  | [] => O
  | y :: s' => if decide (x = y) then O else S (index_of x s')
  end.

(** [x] occurs for the first time before [y] does. *)
Definition first_before (s : list K) (x y : K) : Prop :=
  (index_of x s < index_of y s)%nat.

(** The distinct elements of [s], each at its first occurrence. *)
Fixpoint distinct (s : list K) : list K :=
  match s with
  | [] => []
  | x :: s' => x :: filter (λ y, y ≠ x) (distinct s')
  end.

End get_counts.

(** *** [double_list] *)

(** The notebook applies [double_list] to lists of scalars: numbers and
    strings. *)
Inductive scalar :=
| SInt (n : Z)
| SStr (s : string).

Fixpoint str_repeat (s : string) (k : nat) : string :=
  match k with
  | O => ""
  | S k' => s +:+ str_repeat s k'
  end.

(** [x * k] for an integer [k]: product of numbers, repetition of strings
    (empty when [k <= 0]). *)
Definition mul (x : scalar) (k : Z) : scalar :=
  match x with
  | SInt n => SInt (n * k)
  | SStr s => SStr (str_repeat s (Z.to_nat k))
  end.

Definition double_list (some_list : ref) : py (gmap ref (list scalar)) unit :=
  let* n := len some_list in
  for_each (range n) (λ pos,
    let* x := getitem some_list pos in
    setitem some_list pos (mul x 2)).

(** *** [sorted] with a key function

    [sorted] is a language built-in: it copies the iterable into a new
    list and sorts the copy, stably, by increasing key. A stable insertion
    sort denotes it. *)

Section sorted.
Context {A : Type} (key : A → Z).

Fixpoint insert_by (x : A) (l : list A) : list A :=
  match l with
  | [] => [x]
  | y :: l' =>
      if decide (key x ≤ key y) then x :: y :: l' else y :: insert_by x l'
  end.

Fixpoint sort_by (l : list A) : list A :=
  match l with
  | [] => []
  | x :: l' => insert_by x (sort_by l')
  end.

Definition sorted (iterable : ref) : py (gmap ref (list A)) ref :=
  let* xs := deref iterable in
  alloc (sort_by xs).

(** Nondecreasing order of keys. *)
Definition key_le (x y : A) : Prop := key x ≤ key y.

End sorted.

(** [len(x)] of a string, as a Python integer. *)
Definition len_str (x : string) : Z := Z.of_nat (String.length x).

(** A row of [student_tuples]: name, sex, age. *)
Definition student : Type := string * string * Z.

(** [s[2]] *)
Definition third (s : student) : Z := s.2.

(** [sorted(strings, key = lambda x: len(x))] *)
Definition sorted_by_len (strings : ref) : py (gmap ref (list string)) ref :=
  sorted (λ x, len_str x) strings.

(** [sorted(student_tuples, key = lambda s: s[2])] *)
Definition sorted_by_third (student_tuples : ref) : py (gmap ref (list student)) ref :=
  sorted (λ s, third s) student_tuples.

(** *** The module [fibo.py] *)

(** [print(x, end=" ")]: standard output is the sequence of numbers
    printed so far. *)
Definition print (x : Z) : py (list Z) unit :=
  λ out, Ok tt (out ++ [x]).

(** The [while (n >= 2)] loop of [fib]. *)
Equations? fib_while (n a b : Z) : py (list Z) unit by wf (Z.to_nat n) lt :=
  fib_while n a b with decide (n >= 2) := {
    | left _ =>
        let f := a + b in
        let* _ := print f in
        fib_while (n - 1) b f
    | right _ => ret tt }.
Proof. lia. Qed.

Definition fib (n : Z) : py (list Z) unit :=
  let a := 0 in
  let b := 1 in
  let* _ := print b in
  fib_while n a b.

(** The [while (n >= 2)] loop of [fib2]; [result.append(f)] extends the
    local list. *)
Equations? fib2_while (n a b : Z) (result : list Z) : list Z by wf (Z.to_nat n) lt :=
  fib2_while n a b result with decide (n >= 2) := {
    | left _ =>
        let f := a + b in
        let result := result ++ [f] in
        fib2_while (n - 1) b f result
    | right _ => result }.
Proof. lia. Qed.

Definition fib2 {S} (n : Z) : py S (list Z) :=
  let a := 0 in
  let b := 1 in
  let result := [1] in
  ret (fib2_while n a b result).

(** The Fibonacci numbers 0, 1, 1, 2, 3, 5, 8, ... *)
Fixpoint fibonacci (k : nat) : Z :=
  match k with
  | O => 0
  | S k' => match k' with
            | O => 1
            | S k'' => fibonacci k'' + fibonacci k'
            end
  end.

(** The first [k] Fibonacci numbers 1, 1, 2, 3, 5, ... *)
Definition first_fibonacci (k : nat) : list Z := fibonacci <$> seq 1 k.

End Part04.

(** ** The notebook as a sequence of cells with effects

    What a cell does to the outside world is one of a handful of actions:
    read a file, write a file, draw on the inline display, or nothing. A
    statement is kept here by that action; calls into the third-party
    libraries compute (and may raise) without touching the file system.
    Loading an installed package on [import] reads the package's own
    files, which belong to the installation and not to the notebooks; it
    is kept as a library call, since it raises when the package is not
    there. Importing a module file of the notebook's directory is another
    matter: the interpreter reads the file and keeps the compiled
    bytecode in [__pycache__] next to it. *)

Module Jupyter.

Inductive io_event :=
| ReadFile (path : string)
| WriteFile (path : string)
| Display.

#[global] Instance io_event_eq_dec : EqDecision io_event.
Proof. solve_decision. Defined.

(** The file system and the log of actions performed so far. *)
Record world := World { files : gmap string string; trace : list io_event }.

Definition log (ev : io_event) : py world unit :=
  λ w, Ok tt (World (files w) (trace w ++ [ev])).

Definition FileNotFoundError (path : string) : exn :=
  Exn "FileNotFoundError" path.
Definition ModuleNotFoundError (name : string) : exn :=
  Exn "ModuleNotFoundError" name.

(** Opening and reading a file; a missing file raises. *)
Definition read_file (path : string) : py world string :=
  λ w, match files w !! path with
       | Some text => Ok text (World (files w) (trace w ++ [ReadFile path]))
       | None => Raise (FileNotFoundError path) w
       end.

Definition write_file (path text : string) : py world unit :=
  λ w, Ok tt (World (<[path := text]> (files w)) (trace w ++ [WriteFile path])).

(** What the notebooks do not decide about the interpreter that runs
    them: the tag in the names of its bytecode files ([cpython-39] for the
    Python 3.9 the notebooks were saved with), whether it takes the cached
    bytecode of a module for up to date (it compares the time stamp and
    the size of the source recorded in the cache), whether it writes
    bytecode at all (not under [PYTHONDONTWRITEBYTECODE], nor into a
    directory it cannot write), and the bytes it writes for a source
    text. *)
Record interpreter := Interpreter {
  cache_tag : string;
  cache_fresh : string → world → bool;
  writes_bytecode : world → bool;
  bytecode : string → world → string
}.

(** [m.py], the file of module [m]. *)
Definition module_file (name : string) : string := name +:+ ".py".

(** [__pycache__/m.<tag>.pyc], the file of the bytecode of module [m]. *)
Definition cache_file (python : interpreter) (name : string) : string :=
  "__pycache__/" +:+ name +:+ "." +:+ cache_tag python +:+ ".pyc".

Inductive stmt :=
| Pure                                  (* definitions, literals, built-ins *)
| Echo                                  (* the value of the last expression is shown *)
| Plot                                  (* the figure of the cell is drawn inline *)
| LibCall (cell : nat) (callee : string) (* numpy / pandas / scikit-learn / matplotlib: a computation, or the loading of the package *)
| ReadCsv (path : string)               (* pd.read_csv(path) *)
| WriteFileMagic (path text : string)   (* %%writefile path *)
| ShellCat (path : string)              (* !cat path *)
| ImportModule (name : string).         (* import of a module file of the notebook's directory *)

Section exec.
(** The libraries, as far as failure goes: the exception, if any, that
    the CSV parser raises on a file's text, and the exception, if any,
    that the library computation at a call site raises. *)
Variable parse_error : string → option exn.
Variable lib_error : nat → string → option exn.
Variable python : interpreter.

Definition read_csv (path : string) : py world unit :=
  let* text := read_file path in
  match parse_error text with
  | Some e => raise e
  | None => ret tt
  end.

(** [!cat path]: the shell shows the file, or its own complaint when
    the file is missing; nothing is raised in the kernel. *)
Definition shell_cat (path : string) : py world unit :=
  λ w, match files w !! path with
       | Some _ => Ok tt (World (files w) (trace w ++ [ReadFile path; Display]))
       | None => Ok tt (World (files w) (trace w ++ [Display]))
       end.

(** The source of a module is compiled: it is read, and the bytecode is
    written to the cache when the interpreter writes bytecode. [looked]
    is what has been read before. *)
Definition compile_module (name text : string) (looked : list io_event) : py world unit :=
  λ w, if writes_bytecode python w
       then Ok tt (World (<[cache_file python name := bytecode python text w]> (files w))
                         (trace w ++ looked
                            ++ [ReadFile (module_file name); WriteFile (cache_file python name)]))
       else Ok tt (World (files w) (trace w ++ looked ++ [ReadFile (module_file name)])).

(** [import m] for a module file next to the notebook, in a kernel that
    has not loaded [m] yet. Without [m.py] there is no module. With it,
    the cached bytecode is read when there is some; bytecode that is up to
    date is loaded as it is, otherwise the source is compiled. *)
Definition import_module (name : string) : py world unit :=
  λ w, match files w !! module_file name with
       | None => Raise (ModuleNotFoundError name) w
       | Some text =>
           match files w !! cache_file python name with
           | Some _ =>
               if cache_fresh python name w
               then Ok tt (World (files w) (trace w ++ [ReadFile (cache_file python name)]))
               else compile_module name text [ReadFile (cache_file python name)] w
           | None => compile_module name text [] w
           end
       end.

(** [%%writefile path]: the magic reports what it is about to do
    ("Writing fibo.py", or "Overwriting fibo.py"), then writes the cell
    body. *)
Definition writefile (path text : string) : py world unit :=
  let* _ := log Display in write_file path text.

(** A library computation at a call site. *)
Definition lib_call (cell : nat) (callee : string) : py world unit :=
  match lib_error cell callee with
  | Some e => raise e
  | None => ret tt
  end.

Definition exec (c : stmt) : py world unit :=
  match c with
  | Pure => ret tt
  | Echo => log Display
  | Plot => log Display
  | LibCall cell callee => lib_call cell callee
  | ReadCsv path => read_csv path
  | WriteFileMagic path text => writefile path text
  | ShellCat path => shell_cat path
  | ImportModule name => import_module name
  end.


Definition run_cell (cell : list stmt) : py world unit := for_each cell exec.

(** Running the cells top to bottom; the run stops at the first
    exception. *)
Definition run_notebook (nb : list (list stmt)) : py world unit :=
  for_each nb run_cell.

End exec.



End Jupyter.

(** ** The two notebooks, cell by cell *)

Module Notebooks.

Import Jupyter.

Definition forest_csv : string := "../Datasets/forest-cover-type.csv".
Definition mnist_csv : string := "../Datasets/MNIST/mnist_test.csv".

(** The code cells of the ensemble notebook, in order. Cells are numbered
    as in the notebook file (from 0, markdown cells included); a library
    call is named by the number of its cell and by the function called. *)
Definition ensemble : list (list stmt) :=
  [ [LibCall 1 "import numpy"; LibCall 1 "import pandas"; LibCall 1 "import seaborn";
     LibCall 1 "import matplotlib.pyplot";
     LibCall 1 "from sklearn.metrics import accuracy_score";
     LibCall 1 "from sklearn.tree import DecisionTreeClassifier";
     LibCall 1 "from sklearn.ensemble import RandomForestClassifier";
     LibCall 1 "from sklearn.ensemble import BaggingClassifier";
     LibCall 1 "from sklearn.model_selection import train_test_split, cross_val_score, validation_curve, learning_curve";
     LibCall 1 "%matplotlib inline"]  (* cell 1: the packages are loaded *)
  ; [ReadCsv forest_csv; Echo]  (* cell 3: forest = pd.read_csv(...); forest.shape *)
  ; [LibCall 4 "forest.head"; Echo]  (* cell 4 *)
  ; [LibCall 6 "sns.countplot"; Plot]  (* cell 6 *)
  ; [LibCall 8 "forest.isna.sum"; Echo]  (* cell 8 *)
  ; [LibCall 10 "forest.drop"; LibCall 10 "train_test_split"]  (* cell 10: X, y and the split *)
  ; [LibCall 12 "DecisionTreeClassifier"; LibCall 12 "learner.fit"; LibCall 12 "learner.predict";
     LibCall 12 "accuracy_score"; LibCall 12 "np.round"; Echo]  (* cell 12 *)
  ; [Echo]  (* cell 14: node_count, max_depth *)
  ; [LibCall 16 "cross_val_score"; LibCall 16 "scores.mean";
     LibCall 16 "np.round"; Echo]  (* cell 16 *)
  ; [LibCall 18 "DecisionTreeClassifier"; LibCall 18 "cross_val_score"; LibCall 18 "scores.mean";
     LibCall 18 "np.round"; Echo]  (* cell 18 *)
  ; [LibCall 20 "learning_curve"]  (* cell 20 *)
  ; [LibCall 21 "np.mean"; LibCall 21 "np.std";
     LibCall 21 "plt.plot"; Plot]  (* cell 21 *)
  ; [LibCall 23 "np.mean"; LibCall 23 "np.round"; Echo]  (* cell 23 *)
  ; [LibCall 25 "np.arange"; LibCall 25 "DecisionTreeClassifier";
     LibCall 25 "validation_curve"]  (* cell 25 *)
  ; [LibCall 26 "np.mean"; LibCall 26 "plt.plot"; Plot]  (* cell 26 *)
  ; [LibCall 29 "DecisionTreeClassifier"; LibCall 29 "BaggingClassifier";
     LibCall 29 "learning_curve"]  (* cell 29 *)
  ; [LibCall 30 "np.mean"; LibCall 30 "np.std";
     LibCall 30 "plt.plot"; Plot]  (* cell 30 *)
  ; [LibCall 32 "np.mean"; LibCall 32 "np.round"; Echo]  (* cell 32 *)
  ; [LibCall 34 "DecisionTreeClassifier"; LibCall 34 "BaggingClassifier";
     LibCall 34 "learning_curve"]  (* cell 34 *)
  ; [LibCall 35 "np.mean"; LibCall 35 "np.std";
     LibCall 35 "plt.plot"; Plot]  (* cell 35 *)
  ; [LibCall 37 "np.mean"; LibCall 37 "np.round"; Echo]  (* cell 37 *)
  ; [LibCall 39 "RandomForestClassifier"; LibCall 39 "learning_curve"]  (* cell 39 *)
  ; [LibCall 40 "np.mean"; LibCall 40 "np.std";
     LibCall 40 "plt.plot"; Plot]  (* cell 40 *)
  ; [LibCall 42 "np.mean"; LibCall 42 "np.round"; Echo]  (* cell 42 *)
  ; [LibCall 44 "np.arange"; LibCall 44 "RandomForestClassifier";
     LibCall 44 "validation_curve"]  (* cell 44 *)
  ; [LibCall 45 "np.mean"; LibCall 45 "np.std";
     LibCall 45 "plt.plot"; Plot]  (* cell 45 *)
  ; [LibCall 47 "DecisionTreeClassifier"; LibCall 47 "BaggingClassifier"; LibCall 47 "RandomForestClassifier";
     LibCall 47 "validation_curve.bag"; LibCall 47 "validation_curve.rf"]  (* cell 47 *)
  ; [LibCall 48 "np.mean"; LibCall 48 "np.std";
     LibCall 48 "plt.plot"; Plot]  (* cell 48 *)
  ; [ReadCsv mnist_csv; LibCall 51 "mnist.head"; Echo]  (* cell 51: mnist = pd.read_csv(...); mnist.head() *)
  ; [Echo]  (* cell 52: mnist.shape *)
  ; [LibCall 54 "mnist.drop"; LibCall 54 "train_test_split"]  (* cell 54 *)
  ; [LibCall 56 "plt.figure"; LibCall 56 "reshape";
     LibCall 56 "plt.imshow"; Plot]  (* cell 56: the 8 x 8 grid of digits *)
  ; [LibCall 58 "DecisionTreeClassifier"; LibCall 58 "tree_lrn.fit"; LibCall 58 "tree_lrn.predict";
     LibCall 58 "accuracy_score"; LibCall 58 "np.round"; Echo]  (* cell 58 *)
  ; [Echo]  (* cell 59: node_count, max_depth *)
  ; [LibCall 61 "learning_curve"]  (* cell 61 *)
  ; [LibCall 62 "np.mean"; LibCall 62 "np.std";
     LibCall 62 "plt.plot"; Plot]  (* cell 62 *)
  ; [LibCall 64 "DecisionTreeClassifier"; LibCall 64 "BaggingClassifier";
     LibCall 64 "learning_curve"]  (* cell 64 *)
  ; [LibCall 65 "np.mean"; LibCall 65 "np.std";
     LibCall 65 "plt.plot"; Plot]  (* cell 65 *)
  ; [LibCall 67 "RandomForestClassifier"; LibCall 67 "learning_curve"]  (* cell 67 *)
  ; [LibCall 68 "np.mean"; LibCall 68 "np.std";
     LibCall 68 "plt.plot"; Plot]  (* cell 68 *)
  ; [LibCall 70 "np.arange"; LibCall 70 "RandomForestClassifier";
     LibCall 70 "validation_curve"]  (* cell 70 *)
  ; [LibCall 71 "np.mean"; LibCall 71 "np.std";
     LibCall 71 "plt.plot"; Plot]  (* cell 71 *)
  ; [LibCall 73 "DecisionTreeClassifier"; LibCall 73 "BaggingClassifier"; LibCall 73 "RandomForestClassifier";
     LibCall 73 "validation_curve.bag"; LibCall 73 "validation_curve.rf"]  (* cell 73 *)
  ; [LibCall 74 "np.mean"; LibCall 74 "np.std";
     LibCall 74 "plt.plot"; Plot]  (* cell 74 *)
  ].










End Notebooks.

(** ** The functions the notebooks define, and what they call *)

Module Authored.

Inductive provider :=
| Builtin                         (* the language and its built-in types *)
| ThirdParty (package : string).  (* numpy, pandas, seaborn, matplotlib, sklearn *)

#[global] Instance provider_eq_dec : EqDecision provider.
Proof. solve_decision. Defined.

(** A function definition of a notebook with the operations its body
    invokes. *)
Record fundef := Fundef { fd_name : string; fd_calls : list (string * provider) }.

Definition get_counts_def : fundef :=
  Fundef "get_counts"
    [("dict literal", Builtin); ("dict.__contains__", Builtin);
     ("dict.__getitem__", Builtin); ("dict.__setitem__", Builtin);
     ("dict.items", Builtin); ("list", Builtin)].
Definition double_list_def : fundef :=
  Fundef "double_list"
    [("len", Builtin); ("range", Builtin); ("list.__getitem__", Builtin);
     ("*=", Builtin); ("list.__setitem__", Builtin)].
Definition lambda_len_def : fundef :=
  Fundef "lambda x: len(x)" [("len", Builtin)].
Definition lambda_third_def : fundef :=
  Fundef "lambda s: s[2]" [("tuple.__getitem__", Builtin)].
Definition fib_def : fundef :=
  Fundef "fib" [("print", Builtin); ("+", Builtin); (">=", Builtin); ("-=", Builtin)].
Definition fib2_def : fundef :=
  Fundef "fib2" [("list.append", Builtin); ("+", Builtin); (">=", Builtin); ("-=", Builtin)].

(** [def] and [lambda] forms of the functions notebook (those of [fibo.py]
    included). *)
Definition functions_defs : list fundef :=
  [get_counts_def; double_list_def; lambda_len_def; lambda_third_def; fib_def; fib2_def].

(** The ensemble notebook has no [def] and no [lambda]. *)
Definition ensemble_defs : list fundef := [].

Definition third_party (c : string * provider) : Prop :=
  ∃ package, c.2 = ThirdParty package.

(** The body hands work to a third-party library. *)
Definition delegates (d : fundef) : Prop := Exists third_party (fd_calls d).

(** The body uses the language alone. *)
Definition self_contained (d : fundef) : Prop :=
  Forall (λ c, c.2 = Builtin) (fd_calls d).

End Authored.

(** ** Score arrays and what is drawn from them

    Scores are binary64 floating-point numbers, as numpy holds them, and
    every operation on them rounds. [np.mean] adds the entries and divides
    by their number; [np.std] is the square root of the mean of the
    squared deviations from that mean (the population standard deviation).
    numpy adds fewer than eight numbers from left to right, starting from
    zero (only on entries that are all negative zeros does the start show:
    their sum is then zero); this is the case of every score array of the
    notebook, whose matrices have one column per fold ([cv=3]) and whose
    [cross_val_score] vectors have [cv=5] entries. Eight numbers or more
    it adds by blocks and pairs, in an order that depends on how the
    array lies in memory: that sum is left open. *)

Module Scores.

Section numpy.
(** [np.add.reduce] of eight numbers or more. *)
Variable sum_long : list float → float.

(** [np.add.reduce] *)
Definition total (xs : list float) : float :=
  if (length xs <? 8)%nat then foldl PrimFloat.add 0%float xs else sum_long xs.

Definition count (xs : list float) : float :=
  PrimFloat.of_uint63 (Uint63.of_Z (Z.of_nat (length xs))).

(** [np.mean(xs)]; of no number at all it is [nan]. *)
Definition mean (xs : list float) : float := (total xs / count xs)%float.

(** [np.std(xs)]: [x = xs - mean; x = x * x; sqrt(sum(x) / n)]. *)
Definition std (xs : list float) : float :=
  let arrmean := mean xs in
  PrimFloat.sqrt (mean ((λ x, let d := (x - arrmean)%float in (d * d)%float) <$> xs)).

Definition mean_axis1 (m : list (list float)) : list float := mean <$> m.
Definition std_axis1 (m : list (list float)) : list float := std <$> m.

(** Elementwise [a - b] and [a + b] of arrays of one shape. *)
Definition sub (a b : list float) : list float := zip_with PrimFloat.sub a b.
Definition add (a b : list float) : list float := zip_with PrimFloat.add a b.

(** What a figure holds: [plt.plot(xs, ys)] and
    [plt.fill_between(xs, lo, hi)]. *)
Inductive artist :=
| Line (xs ys : list float)
| Band (xs lo hi : list float).

(** The learning-curve and validation-curve cells with a shaded band
    (the x axis is [train_size] or [depths]). *)
Definition curve_cell (x : list float) (train_score val_score : list (list float)) : list artist :=
  let train_score_mean := mean_axis1 train_score in
  let train_score_std := std_axis1 train_score in
  let val_score_mean := mean_axis1 val_score in
  let val_score_std := std_axis1 val_score in
  [ Band x (sub train_score_mean train_score_std) (add train_score_mean train_score_std)
  ; Band x (sub val_score_mean val_score_std) (add val_score_mean val_score_std)
  ; Line x train_score_mean
  ; Line x val_score_mean ].

(** The "Tree classifier vs. depth" cell: two lines, no band. *)
Definition depth_cell (depths : list float) (train_score val_score : list (list float)) : list artist :=
  [ Line depths (mean_axis1 val_score)
  ; Line depths (mean_axis1 train_score) ].

(** The "Bagging vs. Random Forest" cells. *)
Definition compare_cell (num_trees : list float) (bag_val_score rf_val_score : list (list float)) : list artist :=
  let bag_val_score_mean := mean_axis1 bag_val_score in
  let bag_val_score_std := std_axis1 bag_val_score in
  let rf_val_score_mean := mean_axis1 rf_val_score in
  let rf_val_score_std := std_axis1 rf_val_score in
  [ Band num_trees (sub bag_val_score_mean bag_val_score_std) (add bag_val_score_mean bag_val_score_std)
  ; Band num_trees (sub rf_val_score_mean rf_val_score_std) (add rf_val_score_mean rf_val_score_std)
  ; Line num_trees bag_val_score_mean
  ; Line num_trees rf_val_score_mean ].

(** [np.round(_, decimals=2)] *)
Variable round2 : float → float.

(** [np.round(scores.mean(), decimals=2)] *)
Definition cv_estimate (scores : list float) : float := round2 (mean scores).

(** [list(np.round(np.mean(val_score, 1), decimals=2))] *)
Definition val_summary (val_score : list (list float)) : list float :=
  round2 <$> mean_axis1 val_score.

(** A score matrix with one column per fold. *)
Definition folds (cv : nat) (m : list (list float)) : Prop :=
  Forall (λ row, length row = cv) m.

(** The number a float stands for, in lowest terms, when it is finite. *)
Definition value (x : float) : option Q :=
  match Prim2SF x with
  | S754_zero _ => Some 0%Q
  | S754_finite s m e =>
      Some (Qred ((if s then -1 else 1) * inject_Z (Z.pos m) * 2 ^ e)%Q)
  | _ => None
  end.

(** Half the height of a band between [lo] and [hi], as a number. *)
Definition half_width (lo hi : float) : option Q :=
  l ← value lo; h ← value hi; Some (Qred ((h - l) / 2)%Q).

(** The description's reading of a figure. An artist shows a score
    matrix [m] when it is the line of the row means of [m], or a band
    whose half-width is, at every row, the standard deviation of that
    row. *)
Definition shows (m : list (list float)) (a : artist) : Prop :=
  match a with
  | Line _ ys => ys = mean_axis1 m
  | Band _ lo hi => zip_with half_width lo hi = value <$> std_axis1 m
  end.

(** What the cells compute. An artist is drawn from a score matrix [m]
    when it is the line of the row means of [m], or the band that runs,
    at every row, from the mean minus the standard deviation to the mean
    plus the standard deviation of that row, both in binary64. *)
Definition drawn_from (m : list (list float)) (a : artist) : Prop :=
  match a with
  | Line _ ys => ys = mean <$> m
  | Band _ lo hi =>
      lo = (λ row, (mean row - std row)%float) <$> m
      ∧ hi = (λ row, (mean row + std row)%float) <$> m
  end.

End numpy.

End Scores.

(** ** The train/test split

    [train_test_split] is scikit-learn's. For a fractional [test_size] and
    no [train_size] it puts [ceil(test_size * n)] rows in the test set and
    the rest in the training set, choosing them by one random permutation
    of the row indices: the first [n_test] indices are the test rows, the
    following [n_train] the training rows. The permutation is drawn from a
    generator seeded with [random_state] when one is given, and from numpy's
    global generator otherwise. The generator itself is a parameter; the
    fraction 0.2 is the rational 1/5. *)

Module Split.

Section split.
Context {rng : Type}.
Variable seeded : Z → rng.                  (* RandomState(seed) *)
Variable permutation : rng → nat → list nat. (* rng.permutation(n) *)

(** [X[idx]] for valid indices. *)
Definition rows {A} (X : list A) (idx : list nat) : list A :=
  omap (λ i, X !! i) idx.

Definition n_test_of (test_size : Q) (n_samples : nat) : nat :=
  Z.to_nat (Qceiling (test_size * inject_Z (Z.of_nat n_samples))).

Definition ValueError (what : string) : exn := Exn "ValueError" what.

(** Arrays of different lengths are refused, and so is a split that would
    leave the training set empty. *)
Definition train_test_split {A B} (X : list A) (y : list B)
    (test_size : Q) (random_state : option Z) (global : rng)
  : exn + (list A * list A * list B * list B) :=
  let n_samples := length X in
  if decide (length y ≠ n_samples)
  then inl (ValueError "inconsistent numbers of samples")
  else
    let n_test := n_test_of test_size n_samples in
    let n_train := (n_samples - n_test)%nat in
    if decide (n_train = 0%nat)
    then inl (ValueError "the resulting train set will be empty")
    else
      let g := match random_state with
               | Some seed => seeded seed
               | None => global
               end in
      let perm := permutation g n_samples in
      let ind_test := take n_test perm in
      let ind_train := take n_train (drop n_test perm) in
      inr (rows X ind_train, rows X ind_test, rows y ind_train, rows y ind_test).

(** [train_test_split(X, y, test_size=0.2, random_state=42)], as both
    data sets are split. *)
Definition notebook_split {A B} (X : list A) (y : list B) (global : rng)
  : exn + (list A * list A * list B * list B) :=
  train_test_split X y (1 # 5) (Some 42) global.

End split.

(** The forest cover data set has 15120 rows. *)
Definition forest_rows : nat := Z.to_nat 15120.

End Split.

(** ** Further cells of the functions notebook *)

Module Cells.

Import Store Part04.

(** [l.append(v)]: the list object grows by one element. *)
Definition append {A} (l : ref) (v : A) : py (gmap ref (list A)) unit :=
  let* xs := deref l in
  λ h, Ok tt (<[l := xs ++ [v]]> h).

(** The inner loop [for f in clean_ops: s = f(s)] rebinds the local name
    [s]; the functions of [clean_ops] are values like any other. *)
Fixpoint apply_ops (clean_ops : list (string → string)) (s : string) : string :=
  match clean_ops with
  | [] => s
  | f :: ops => apply_ops ops (f s)
  end.

(** The cleaning cell: [result = []], then for every [s] of [names] the
    functions are applied in turn and the outcome is appended to
    [result]. *)
Definition clean_names (clean_ops : list (string → string)) (names : ref)
  : py (gmap ref (list string)) ref :=
  let* result := alloc [] in
  let* xs := deref names in
  let* _ := for_each xs (λ s, let s := apply_ops clean_ops s in append result s) in
  ret result.

(** [[n ** 2 for n in range(stop)]]; the timed statement has [stop = 1000]. *)
Definition squares (stop : nat) : list Z :=
  (λ n : nat, Z.of_nat n ^ 2) <$> range stop.

(** [for n in range(stop): L.append(n ** 2)]; the timed body has
    [stop = 1000]. *)
Definition append_squares (stop : nat) (L : ref) : py (gmap ref (list Z)) unit :=
  for_each (range stop) (λ n, append L (Z.of_nat n ^ 2)).

(** Running a body [k] times in a row, as a timing loop does. *)
Fixpoint repeat_body {S} (k : nat) (body : py S unit) : py S unit :=
  match k with
  | O => ret tt
  | S k' => let* _ := body in repeat_body k' body
  end.

#[global] Instance scalar_eq_dec : EqDecision scalar.
Proof. solve_decision. Defined.

(** The sum of a list of Python integers. *)
Definition sum (xs : list Z) : Z := foldr Z.add 0 xs.

(** The files read, in order, among logged actions. *)
Definition files_read (evs : list Jupyter.io_event) : list string :=
  omap (λ ev, match ev with Jupyter.ReadFile path => Some path | _ => None end) evs.

(** The files written, in order, among logged actions. *)
Definition files_written (evs : list Jupyter.io_event) : list string :=
  omap (λ ev, match ev with Jupyter.WriteFile path => Some path | _ => None end) evs.

(** What a statement of the ensemble notebook adds to the log when it
    succeeds. (What the statements on files of the functions notebook add
    depends on the file system; they are given no list here.) *)
Definition stmt_events (c : Jupyter.stmt) : list Jupyter.io_event :=
  match c with
  | Jupyter.Pure | Jupyter.LibCall _ _ => []
  | Jupyter.Echo | Jupyter.Plot => [Jupyter.Display]
  | Jupyter.ReadCsv path => [Jupyter.ReadFile path]
  | Jupyter.WriteFileMagic _ _ | Jupyter.ShellCat _ | Jupyter.ImportModule _ => []
  end.

(** A statement of the ensemble notebook meets no failure: the file it
    reads is there and parses, the library call it makes does not raise. *)
Definition no_failure (parse_error : string → option exn)
    (lib_error : nat → string → option exn) (fs : gmap string string)
    (c : Jupyter.stmt) : Prop :=
  match c with
  | Jupyter.Pure | Jupyter.Echo | Jupyter.Plot => True
  | Jupyter.LibCall cell callee => lib_error cell callee = None
  | Jupyter.ReadCsv path => ∃ text, fs !! path = Some text ∧ parse_error text = None
  | _ => False
  end.

End Cells.

(** ** Data frames, arrays and the figure of digits

    What the ensemble notebook does with its tables before fitting: it
    drops columns, takes a column as the labels, takes rows by position
    and reshapes them. A frame is its column names and its rows; the
    operations are pandas' and numpy's and raise as these do ([KeyError]
    for a missing column, [IndexError] for a missing row, [ValueError] for
    a shape that does not fit). *)

Module Frames.

Record frame (V : Type) := Frame { columns : list string; table : list (list V) }.
Arguments Frame {V} columns table.
Arguments columns {V} f.
Arguments table {V} f.

Definition KeyError (label : string) : exn := Exn "KeyError" label.
Definition IndexError : exn := Exn "IndexError" "single positional indexer is out-of-bounds".
Definition ValueError (what : string) : exn := Exn "ValueError" what.

Section frames.
Context {V : Type}.

(** Column names are distinct and every row has a value for each. *)
Definition well_formed (df : frame V) : Prop :=
  NoDup (columns df) ∧ Forall (λ row, length row = length (columns df)) (table df).

(** The values of a row under the columns that are not in [labels]. *)
Definition drop_from_row (labels cols : list string) (row : list V) : list V :=
  (filter (λ cv, cv.1 ∉ labels) (zip cols row)).*2.

(** [df.drop(columns=labels)] *)
Definition drop_columns (labels : list string) (df : frame V) : exn + frame V :=
  match filter (λ c, c ∉ columns df) labels with
  | c :: _ => inl (KeyError c)
  | [] => inr (Frame (filter (λ c, c ∉ labels) (columns df))
                     (drop_from_row labels (columns df) <$> table df))
  end.

(** The position of a column. *)
Fixpoint position (label : string) (cols : list string) : option nat :=
  match cols with
  | [] => None
  | c :: cols' => if decide (c = label) then Some O else S <$> position label cols'
  end.

(** [df[label].values] *)
Definition column_values (label : string) (df : frame V) : exn + list V :=
  match position label (columns df) with
  | None => inl (KeyError label)
  | Some j => inr (omap (λ row, row !! j) (table df))
  end.

(** [df.values] *)
Definition values (df : frame V) : list (list V) := table df.

(** [df.iloc[k].values] *)
Definition iloc (k : nat) (df : frame V) : exn + list V :=
  match table df !! k with
  | Some row => inr row
  | None => inl IndexError
  end.

(** The rows of an array in row-major order. *)
Fixpoint chunks (nrows ncols : nat) (a : list V) : list (list V) :=
  match nrows with
  | O => []
  | S nrows' => take ncols a :: chunks nrows' ncols (drop ncols a)
  end.

(** [a.reshape(nrows, ncols)] *)
Definition reshape (nrows ncols : nat) (a : list V) : exn + list (list V) :=
  if decide (length a = nrows * ncols)%nat
  then inr (chunks nrows ncols a)
  else inl (ValueError "cannot reshape array")%string.

(** The feature matrix and the label vector of a table, as in the cell
    [X = forest.drop(columns=['Id', 'Cover_Type']).values;
     y = forest['Cover_Type'].values]. *)
Definition features_and_labels (dropped : list string) (label : string)
    (df : frame V) : exn + (list (list V) * list V) :=
  match drop_columns dropped df with
  | inl e => inl e
  | inr features =>
      match column_values label df with
      | inl e => inl e
      | inr y => inr (values features, y)
      end
  end.

Definition forest_Xy (forest : frame V) : exn + (list (list V) * list V) :=
  features_and_labels ["Id"; "Cover_Type"]%string "Cover_Type"%string forest.

(** [X, y] followed by the split cell. *)
Definition forest_split {rng : Type} (seeded : Z → rng)
    (permutation : rng → nat → list nat) (forest : frame V) (global : rng)
  : exn + (list (list V) * list (list V) * list V * list V) :=
  match forest_Xy forest with
  | inl e => inl e
  | inr (X, y) => Split.notebook_split seeded permutation X y global
  end.

(** The figure: the images drawn so far, each with the number of its
    place in the grid. *)
Definition figure : Type := list (nat * list (list V)).

(** [plt.subplot(nrows, ncols, index)]: places are numbered from 1, row by
    row. *)
Definition subplot (nrows ncols index : nat) : py figure nat :=
  if decide (1 ≤ index ≤ nrows * ncols)%nat
  then ret index
  else raise (ValueError "num must be an integer with 1 <= num <= nrows * ncols")%string.

(** [plt.imshow(grid)] in the current place. *)
Definition imshow (place : nat) (grid : list (list V)) : py figure unit :=
  λ fig, Ok tt (fig ++ [(place, grid)]).

Definition lift {A} (r : exn + A) : py figure A :=
  match r with
  | inl e => raise e
  | inr a => ret a
  end.

(** The cell that shows the first digits:
    [for digit_num in range(0,64): plt.subplot(8,8,digit_num+1);
     grid_data = mnist_X.iloc[digit_num].values.reshape(28,28);
     plt.imshow(grid_data, ...)]. *)
Definition show_digits (mnist_X : frame V) : py figure unit :=
  for_each (seq 0 64) (λ digit_num,
    let* place := subplot 8 8 (digit_num + 1) in
    let* row := lift (iloc digit_num mnist_X) in
    let* grid_data := lift (reshape 28 28 row) in
    imshow place grid_data).

End frames.

End Frames.

(** * Properties *)

Import Store Part04.

(** ** Dictionaries *)

Section dict_facts.
Context {K V : Type} `{EqDecision K}.
Implicit Types (d : list (K * V)) (k : K) (v : V).

Lemma dict_lookup_None d k : Dict.lookup d k = None ↔ k ∉ d.*1.
Proof.
  induction d as [|[k' v'] d IH]; simpl.
  - split; [intros _; apply not_elem_of_nil | done].
  - rewrite not_elem_of_cons. destruct (decide (k = k')) as [->|Hne].
    + split; [done | intros [? _]; done].
    + rewrite IH. tauto.
Qed.

Lemma dict_contains_true d k : Dict.contains d k = true ↔ k ∈ d.*1.
Proof.
  unfold Dict.contains. destruct (Dict.lookup d k) eqn:E.
  - split; [intros _ | done].
    destruct (decide (k ∈ d.*1)) as [|Hn]; [done|].
    apply dict_lookup_None in Hn. congruence.
  - apply dict_lookup_None in E. split; [done | intros; contradiction].
Qed.

Lemma dict_setitem_keys_old d k v : k ∈ d.*1 → (Dict.setitem d k v).*1 = d.*1.
Proof.
  induction d as [|[k' v'] d IH]; simpl; intros Hin.
  - by apply elem_of_nil in Hin.
  - destruct (decide (k = k')) as [->|Hne]; [done|].
    simpl. f_equal. apply IH. apply elem_of_cons in Hin as [?|?]; done.
Qed.

Lemma dict_setitem_keys_new d k v : k ∉ d.*1 → (Dict.setitem d k v).*1 = d.*1 ++ [k].
Proof.
  induction d as [|[k' v'] d IH]; simpl; intros Hin; [done|].
  apply not_elem_of_cons in Hin as [Hne Hin].
  destruct (decide (k = k')); [done|]. simpl. f_equal. by apply IH.
Qed.

Lemma dict_lookup_setitem d k v k' :
  Dict.lookup (Dict.setitem d k v) k' =
  if decide (k' = k) then Some v else Dict.lookup d k'.
Proof.
  induction d as [|[k0 v0] d IH]; simpl.
  - destruct (decide (k' = k)); done.
  - destruct (decide (k = k0)) as [->|Hne]; simpl.
    + destruct (decide (k' = k0)); done.
    + destruct (decide (k' = k0)) as [->|]; [|done].
      destruct (decide (k0 = k)); [congruence | done].
Qed.

Lemma dict_lookup_elem_of d k v : NoDup d.*1 → (k, v) ∈ d → Dict.lookup d k = Some v.
Proof.
  induction d as [|[k0 v0] d IH]; simpl; intros Hnd Hin.
  - by apply elem_of_nil in Hin.
  - apply NoDup_cons in Hnd as [Hk0 Hnd].
    apply elem_of_cons in Hin as [Heq|Hin].
    + injection Heq as -> ->. by rewrite decide_True.
    + destruct (decide (k = k0)) as [->|]; [|by apply IH].
      exfalso. apply Hk0. apply list_elem_of_fmap. by exists (k0, v).
Qed.

End dict_facts.

(** ** [get_counts] *)

Section get_counts_facts.
Context {K : Type} `{EqDecision K}.
Implicit Types (s : list K) (d : list (K * Z)) (x : K).

(** The distinct elements, in the order of their first occurrences. *)

Lemma elem_of_distinct s x : x ∈ distinct s ↔ x ∈ s.
Proof.
  induction s as [|y s IH]; simpl; [done|].
  rewrite !elem_of_cons, list_elem_of_filter, IH.
  destruct (decide (x = y)); tauto.
Qed.

Lemma NoDup_distinct s : NoDup (distinct s).
Proof.
  induction s as [|y s IH]; simpl; [constructor|].
  apply NoDup_cons. split.
  - rewrite list_elem_of_filter. intros [Hne _]. by apply Hne.
  - by apply NoDup_filter.
Qed.

Lemma index_of_cons_ne x y s : x ≠ y → index_of x (y :: s) = S (index_of x s).
Proof. intros Hne. simpl. by rewrite decide_False. Qed.

Lemma first_before_filter y s l :
  StronglySorted (first_before s) l →
  StronglySorted (first_before (y :: s)) (filter (λ z, z ≠ y) l).
Proof.
  induction 1 as [|a l Hl IH Hall]; [constructor|].
  rewrite filter_cons. destruct (decide (a ≠ y)) as [Ha|]; [|done].
  constructor; [done|].
  apply Forall_forall. intros z Hz.
  apply list_elem_of_filter in Hz as [Hzy Hz].
  rewrite Forall_forall in Hall. specialize (Hall z Hz).
  unfold first_before in *.
  rewrite !index_of_cons_ne by done. lia.
Qed.

Lemma distinct_first_before s : StronglySorted (first_before s) (distinct s).
Proof.
  induction s as [|y s IH]; simpl; [constructor|].
  constructor; [by apply first_before_filter|].
  apply Forall_forall. intros z Hz.
  apply list_elem_of_filter in Hz as [Hzy _].
  unfold first_before. rewrite (index_of_cons_ne z y) by done.
  simpl. rewrite decide_True by done. lia.
Qed.

Lemma filter_everything (P : K → Prop) `{!∀ x, Decision (P x)} s :
  (∀ x, P x) → filter P s = s.
Proof.
  intros HP. induction s as [|y s IH]; [done|].
  rewrite filter_cons_True by done. by rewrite IH.
Qed.

(** One iteration never fails: the key read by [counts[x] += 1] is there. *)
Lemma count_step_ok {S} d x (st : S) :
  count_step d x st = Ok (Dict.setitem d x (default 0 (Dict.lookup d x) + 1)) st.
Proof.
  unfold count_step, Dict.contains, Dict.getitem.
  destruct (Dict.lookup d x) as [c|]; reflexivity.
Qed.

Lemma count_loop_ok {S} s d (st : S) :
  ∃ d', count_loop s d st = Ok d' st
        ∧ d'.*1 = d.*1 ++ filter (λ y, y ∉ d.*1) (distinct s)
        ∧ ∀ x, default 0 (Dict.lookup d' x) = default 0 (Dict.lookup d x) + count_of x s.
Proof.
  revert d. induction s as [|y s IH]; intros d; simpl.
  - exists d. split; [done|]. split; [by rewrite app_nil_r | intros; lia].
  - unfold bind. rewrite count_step_ok.
    set (d1 := Dict.setitem d y _).
    destruct (IH d1) as (d' & Hrun & Hkeys & Hcnt).
    exists d'. split; [done|]. split.
    + rewrite Hkeys. subst d1.
      destruct (decide (y ∈ d.*1)) as [Hin|Hout].
      * rewrite dict_setitem_keys_old by done.
        rewrite filter_cons_False by naive_solver.
        f_equal. symmetry. apply list_filter_filter_l. naive_solver.
      * rewrite dict_setitem_keys_new by done.
        rewrite filter_cons_True by done.
        rewrite <-app_assoc. simpl. do 2 f_equal.
        rewrite list_filter_filter. apply list_filter_iff.
        intros z. rewrite not_elem_of_app, list_elem_of_singleton. done.
    + intros x. rewrite Hcnt. subst d1. rewrite dict_lookup_setitem.
      destruct (decide (x = y)) as [->|]; simpl; lia.
Qed.

(** What a call returns, and that it leaves the store alone. *)
Lemma get_counts_ok (h : gmap ref (list K)) (l : ref) s :
  h !! l = Some s →
  ∃ r, get_counts l h = Ok r h
       ∧ r.*1 = distinct s
       ∧ ∀ x, default 0 (Dict.lookup r x) = count_of x s.
Proof.
  intros Hl. unfold get_counts, bind, deref. rewrite Hl.
  destruct (count_loop_ok s [] h) as (d' & Hrun & Hkeys & Hcnt).
  rewrite Hrun. exists d'. split; [done|]. split.
  - rewrite Hkeys. simpl. apply filter_everything. intros; apply not_elem_of_nil.
  - intros x. rewrite Hcnt. simpl. lia.
Qed.

Lemma count_of_nonneg x s : 0 ≤ count_of x s.
Proof. induction s as [|y s IH]; simpl; [lia|]. destruct (decide (x = y)); lia. Qed.

Lemma count_of_pos x s : x ∈ s → 0 < count_of x s.
Proof.
  induction s as [|y s IH]; simpl; intros Hin.
  - by apply elem_of_nil in Hin.
  - pose proof (count_of_nonneg x s).
    destruct (decide (x = y)); [lia|].
    apply elem_of_cons in Hin as [?|Hin]; [done|]. specialize (IH Hin). lia.
Qed.

End get_counts_facts.

(** ** Loops *)

Section loops.
Context {S A : Type}.
Implicit Types (body : A → py S unit) (xs : list A).

Lemma for_each_app xs1 xs2 body st :
  for_each (xs1 ++ xs2) body st =
  match for_each xs1 body st with
  | Ok _ st' => for_each xs2 body st'
  | Raise e st' => Raise e st'
  end.
Proof.
  revert st. induction xs1 as [|x xs1 IH]; intros st; simpl; [done|].
  unfold bind. destruct (body x st) as [[] st'|e st']; [apply IH | done].
Qed.

Lemma for_each_cons_ok x xs body st st' :
  body x st = Ok tt st' → for_each (x :: xs) body st = for_each xs body st'.
Proof. intros Hx. simpl. unfold bind. by rewrite Hx. Qed.

Lemma for_each_cons_raise x xs body st e st' :
  body x st = Raise e st' → for_each (x :: xs) body st = Raise e st'.
Proof. intros Hx. simpl. unfold bind. by rewrite Hx. Qed.

(** A loop raises only what one of its iterations raises. *)
Lemma for_each_raise xs body st e st' :
  for_each xs body st = Raise e st' →
  ∃ x st0, x ∈ xs ∧ body x st0 = Raise e st'.
Proof.
  revert st. induction xs as [|x xs IH]; intros st; simpl; [done|].
  unfold bind. destruct (body x st) as [[] st1|e1 st1] eqn:E.
  - intros (y & st0 & Hy & Hrun)%IH. exists y, st0. split; [by right | done].
  - intros [= -> ->]. exists x, st. split; [by left | done].
Qed.



End loops.

(** ** [double_list] *)

Section double_list_facts.
Implicit Types (h : gmap ref (list scalar)) (xs : list scalar).

Lemma insert_doubled xs (k : nat) x :
  xs !! k = Some x →
  <[k := mul x 2]> (((λ v, mul v 2) <$> take k xs) ++ drop k xs) =
  ((λ v, mul v 2) <$> take (S k) xs) ++ drop (S k) xs.
Proof.
  intros Hk. pose proof (lookup_lt_Some _ _ _ Hk) as Hlt.
  rewrite insert_app_r_alt; rewrite length_fmap, length_take_le by lia; [|lia].
  rewrite Nat.sub_diag, (drop_S _ _ _ Hk). simpl.
  rewrite (take_S_r _ _ _ Hk), fmap_app, <-app_assoc. done.
Qed.

(** After [k] iterations the first [k] positions are doubled and the
    others are as they were. *)
Lemma double_list_prefix h l xs (k : nat) :
  h !! l = Some xs → (k ≤ length xs)%nat →
  for_each (range k)
    (λ pos, let* x := getitem l pos in setitem l pos (mul x 2)) h
  = Ok tt (<[l := ((λ v, mul v 2) <$> take k xs) ++ drop k xs]> h).
Proof.
  intros Hl. induction k as [|k IH]; intros Hk.
  - simpl. unfold ret. rewrite drop_0. by rewrite insert_id.
  - unfold range in *. rewrite seq_S, for_each_app, IH by lia. simpl.
    destruct (lookup_lt_is_Some_2 xs k) as [x Hx]; [lia|].
    unfold bind, getitem, setitem, deref, bind, ret.
    rewrite lookup_insert_eq.
    rewrite lookup_app_r; rewrite length_fmap, length_take_le by lia; [|lia].
    rewrite Nat.sub_diag, lookup_drop, Nat.add_0_r, Hx. simpl.
    rewrite lookup_insert_eq.
    rewrite decide_True.
    2:{ rewrite length_app, length_fmap, length_take_le, length_drop by lia. lia. }
    rewrite insert_insert_eq. by rewrite insert_doubled.
Qed.

Lemma double_list_ok h l xs :
  h !! l = Some xs →
  double_list l h = Ok tt (<[l := (λ v, mul v 2) <$> xs]> h).
Proof.
  intros Hl. unfold double_list, bind at 1, len, bind, deref, ret. rewrite Hl.
  rewrite (double_list_prefix h l xs) by done.
  by rewrite firstn_all, drop_all, app_nil_r.
Qed.

Lemma str_repeat_twice t : str_repeat t 2 = t +:+ t.
Proof.
  simpl. f_equal. induction t as [|c t IH]; [reflexivity|].
  change (String c (t +:+ "") = String c t). by rewrite IH.
Qed.

End double_list_facts.

(** ** [sorted] *)

Lemma StronglySorted_weaken {A} (R R' : relation A) (l : list A) :
  (∀ x y, R x y → R' x y) → StronglySorted R l → StronglySorted R' l.
Proof.
  intros HR. induction 1 as [|x l Hl IH Hall]; constructor; [done|].
  eapply Forall_impl; [exact Hall | auto].
Qed.

Section sorted_facts.
Context {A : Type} (key : A → Z).
Implicit Types (l : list A) (h : gmap ref (list A)).

Lemma insert_by_perm x l : insert_by key x l ≡ₚ x :: l.
Proof.
  induction l as [|y l IH]; simpl; [done|].
  destruct (decide (key x ≤ key y)); [done|].
  rewrite IH. apply Permutation_swap.
Qed.

Lemma sort_by_perm l : sort_by key l ≡ₚ l.
Proof.
  induction l as [|x l IH]; simpl; [done|].
  by rewrite insert_by_perm, IH.
Qed.

Lemma insert_by_sorted x l :
  StronglySorted (key_le key) l → StronglySorted (key_le key) (insert_by key x l).
Proof.
  induction 1 as [|y l Hl IH Hall]; simpl.
  - repeat constructor.
  - destruct (decide (key x ≤ key y)) as [Hle|Hgt].
    + constructor; [by constructor|].
      constructor; [done|].
      eapply Forall_impl; [exact Hall|]. unfold key_le. intros z ?. lia.
    + constructor; [done|].
      rewrite insert_by_perm. constructor; [unfold key_le; lia | done].
Qed.

Lemma sort_by_sorted l : StronglySorted (key_le key) (sort_by key l).
Proof.
  induction l as [|x l IH]; simpl; [constructor | by apply insert_by_sorted].
Qed.

(** The result is a new object; the iterable is still what it was. *)
Lemma sorted_ok h (iterable : ref) l :
  h !! iterable = Some l →
  ∃ r, sorted key iterable h = Ok r (<[r := sort_by key l]> h)
       ∧ r ≠ iterable
       ∧ (<[r := sort_by key l]> h) !! iterable = Some l.
Proof.
  intros Hl. exists (fresh (dom h)).
  assert (fresh (dom h) ≠ iterable) as Hne.
  { intros Heq. apply (is_fresh (dom h)). rewrite Heq.
    apply elem_of_dom. by exists l. }
  unfold sorted, bind, deref, alloc. rewrite Hl.
  split; [done|]. split; [done|]. by rewrite lookup_insert_ne.
Qed.

End sorted_facts.

(** ** [fibo.py] *)

Section fibo_facts.

Lemma fib2_while_eq n a b result :
  fib2_while n a b result =
  if decide (n >= 2) then fib2_while (n - 1) b (a + b) (result ++ [a + b]) else result.
Proof.
  rewrite fib2_while_equation_1.
  destruct (decide (n >= 2)).
  - by rewrite fib2_while_clause_1_equation_1.
  - by rewrite fib2_while_clause_1_equation_2.
Qed.

Lemma fib_while_eq n a b out :
  fib_while n a b out =
  if decide (n >= 2) then fib_while (n - 1) b (a + b) (out ++ [a + b]) else Ok tt out.
Proof.
  rewrite fib_while_equation_1.
  destruct (decide (n >= 2)).
  - by rewrite fib_while_clause_1_equation_1.
  - by rewrite fib_while_clause_1_equation_2.
Qed.

Lemma fibonacci_step k : fibonacci (S (S k)) = fibonacci k + fibonacci (S k).
Proof. reflexivity. Qed.

(** Both loops do the same thing to the sequence they extend. *)
Lemma fib_while_fib2_while (k : nat) : ∀ n a b out,
  Z.to_nat (n - 1) = k →
  fib_while n a b out = Ok tt (fib2_while n a b out).
Proof.
  induction k as [|k IH]; intros n a b out Hk;
    rewrite fib_while_eq, fib2_while_eq;
    destruct (decide (n >= 2)); try done; try lia.
  apply IH. lia.
Qed.

(** Entered with two consecutive Fibonacci numbers, the loop appends the
    following ones, one for each step from [n] down to 2. *)
Lemma fib2_while_fibonacci (k : nat) : ∀ n i result,
  Z.to_nat (n - 1) = k →
  fib2_while n (fibonacci i) (fibonacci (S i)) result =
  result ++ (fibonacci <$> seq (S (S i)) k).
Proof.
  induction k as [|k IH]; intros n i result Hk;
    rewrite fib2_while_eq; destruct (decide (n >= 2)); try lia.
  - simpl. by rewrite app_nil_r.
  - rewrite <-fibonacci_step. rewrite (IH (n - 1) (S i)) by lia.
    rewrite <-app_assoc. done.
Qed.

Lemma fib2_ok {St} n (st : St) :
  fib2 n st = Ok (first_fibonacci (Z.to_nat (Z.max n 1))) st.
Proof.
  unfold fib2, ret, first_fibonacci. f_equal.
  change 0 with (fibonacci 0). change 1 with (fibonacci 1) at 1.
  rewrite (fib2_while_fibonacci (Z.to_nat (n - 1))) by done.
  replace (Z.to_nat (n `max` 1)) with (S (Z.to_nat (n - 1))) by lia.
  reflexivity.
Qed.

Lemma fib_ok n out :
  fib n out = Ok tt (out ++ first_fibonacci (Z.to_nat (Z.max n 1))).
Proof.
  unfold fib, bind, print.
  rewrite (fib_while_fib2_while (Z.to_nat (n - 1))) by done.
  f_equal. unfold first_fibonacci.
  change 0 with (fibonacci 0). change 1 with (fibonacci 1) at 1 2.
  rewrite (fib2_while_fibonacci (Z.to_nat (n - 1))) by done.
  replace (Z.to_nat (n `max` 1)) with (S (Z.to_nat (n - 1))) by lia.
  simpl. by rewrite <-app_assoc.
Qed.

End fibo_facts.

(** ** Runs of a notebook *)

Import Jupyter Notebooks.

Section run_facts.
Variable parse_error : string → option exn.
Variable lib_error : nat → string → option exn.
Variable python : interpreter.
Implicit Types (c : stmt) (w : world) (nb : list (list stmt)).















(** A run without failure. *)
Lemma exec_no_failure c w :
  Cells.no_failure parse_error lib_error (files w) c →
  exec parse_error lib_error python c w
  = Ok tt (World (files w) (trace w ++ Cells.stmt_events c)).
Proof.
  destruct c as [| | |cell callee|path|path text|path|name]; simpl; try done.
  - intros _. unfold ret. rewrite app_nil_r. by destruct w.
  - intros Hok. unfold lib_call. rewrite Hok. unfold ret. rewrite app_nil_r. by destruct w.
  - intros (text & Hfile & Hparse). unfold read_csv, bind, read_file.
    by rewrite Hfile, Hparse.
Qed.

Lemma run_cell_no_failure (cell : list stmt) w :
  Forall (Cells.no_failure parse_error lib_error (files w)) cell →
  run_cell parse_error lib_error python cell w
  = Ok tt (World (files w) (trace w ++ concat (Cells.stmt_events <$> cell))).
Proof.
  unfold run_cell. revert w. induction cell as [|c cell IH]; intros w Hall.
  - simpl. unfold ret. rewrite app_nil_r. by destruct w.
  - apply Forall_cons in Hall as [Hc Hall].
    rewrite (for_each_cons_ok _ _ _ _ _ (exec_no_failure c w Hc)).
    rewrite IH by done. simpl. by rewrite <-app_assoc.
Qed.

Lemma run_notebook_no_failure (nb : list (list stmt)) w :
  Forall (Forall (Cells.no_failure parse_error lib_error (files w))) nb →
  run_notebook parse_error lib_error python nb w
  = Ok tt (World (files w) (trace w ++ concat (Cells.stmt_events <$> concat nb))).
Proof.
  unfold run_notebook. revert w. induction nb as [|cell nb IH]; intros w Hall.
  - simpl. unfold ret. rewrite app_nil_r. by destruct w.
  - apply Forall_cons in Hall as [Hc Hall].
    rewrite (for_each_cons_ok _ _ _ _ _ (run_cell_no_failure cell w Hc)).
    rewrite IH by done. simpl. by rewrite fmap_app, concat_app, <-app_assoc.
Qed.









End run_facts.

(** ** Bands around a curve *)

Section band_facts.
Import Scores.
Variable sum_long : list float → float.
Implicit Types (m : list (list float)).

Lemma sub_rows m :
  sub (mean_axis1 sum_long m) (std_axis1 sum_long m)
  = (λ row, (mean sum_long row - std sum_long row)%float) <$> m.
Proof.
  unfold sub, mean_axis1, std_axis1.
  induction m as [|row m IH]; [done|].
  rewrite !fmap_cons. cbn [zip_with]. by rewrite IH.
Qed.

Lemma add_rows m :
  add (mean_axis1 sum_long m) (std_axis1 sum_long m)
  = (λ row, (mean sum_long row + std sum_long row)%float) <$> m.
Proof.
  unfold add, mean_axis1, std_axis1.
  induction m as [|row m IH]; [done|].
  rewrite !fmap_cons. cbn [zip_with]. by rewrite IH.
Qed.

Lemma band_drawn_from x m :
  drawn_from sum_long m
    (Band x (sub (mean_axis1 sum_long m) (std_axis1 sum_long m))
            (add (mean_axis1 sum_long m) (std_axis1 sum_long m))).
Proof. split; [apply sub_rows | apply add_rows]. Qed.

End band_facts.

(** ** Splitting rows by a permutation of their indices *)

Section rows_facts.
Import Split.

(** A fifth, rounded up. *)
Lemma n_test_fifth (n : nat) : n_test_of (1 # 5) n = Z.to_nat ((Z.of_nat n + 4) / 5).
Proof.
  unfold n_test_of, Qceiling, Qfloor, Qmult, Qopp, inject_Z. simpl.
  f_equal. change (Z.pos (5 * 1)) with 5. rewrite Z.mul_1_l.
  Z.div_mod_to_equations. lia.
Qed.

Lemma n_test_le (n : nat) : (n_test_of (1 # 5) n ≤ n)%nat.
Proof. rewrite n_test_fifth. Z.div_mod_to_equations. lia. Qed.

Lemma rows_length {A} (X : list A) (idx : list nat) :
  Forall (λ i, (i < length X)%nat) idx → length (rows X idx) = length idx.
Proof.
  induction 1 as [|i idx Hi _ IH]; simpl; [done|].
  destruct (lookup_lt_is_Some_2 X i Hi) as [x Hx].
  unfold rows in *. simpl. rewrite Hx. simpl. by rewrite IH.
Qed.

Lemma rows_from {A} (pre X : list A) :
  rows (pre ++ X) (seq (length pre) (length X)) = X.
Proof.
  revert pre. induction X as [|x X IH]; intros pre; simpl; [done|].
  unfold rows in *. simpl. rewrite list_lookup_middle by done. simpl. f_equal.
  specialize (IH (pre ++ [x])).
  rewrite <-app_assoc, length_app, Nat.add_1_r in IH. exact IH.
Qed.

Lemma rows_all {A} (X : list A) : rows X (seq 0 (length X)) = X.
Proof. apply (rows_from [] X). Qed.

End rows_facts.

Section split_facts.
Import Split.
Context {rng : Type} (permutation : rng → nat → list nat).
Hypothesis permutation_perm : ∀ g n, permutation g n ≡ₚ seq 0 n.

Lemma permutation_length g n : length (permutation g n) = n.
Proof. by rewrite permutation_perm, length_seq. Qed.

Lemma permutation_in_range g n : Forall (λ i, (i < n)%nat) (permutation g n).
Proof.
  rewrite permutation_perm. apply Forall_seq. intros; lia.
Qed.

(** The rows selected for training and for testing are all the rows. *)
Lemma split_rows {A} (X : list A) g (n n_test : nat) :
  length X = n → (n_test ≤ n)%nat →
  let perm := permutation g n in
  length (rows X (take n_test perm)) = n_test
  ∧ length (rows X (take (n - n_test) (drop n_test perm))) = (n - n_test)%nat
  ∧ rows X (take (n - n_test) (drop n_test perm)) ++ rows X (take n_test perm) ≡ₚ X.
Proof.
  intros HX Hle perm.
  pose proof (permutation_length g n) as Hlen.
  assert (Forall (λ i, (i < length X)%nat) perm) as Hrange.
  { rewrite HX. apply permutation_in_range. }
  fold perm in Hlen.
  assert (take (n - n_test) (drop n_test perm) = drop n_test perm) as ->.
  { apply take_ge. rewrite length_drop. lia. }
  split; [|split].
  - rewrite rows_length by by apply Forall_take.
    rewrite length_take_le; lia.
  - rewrite rows_length by by apply Forall_drop.
    rewrite length_drop. lia.
  - unfold rows. rewrite <-omap_app.
    rewrite (Permutation_app_comm (drop n_test perm)), take_drop.
    unfold perm. rewrite permutation_perm, <-HX.
    pose proof (rows_all X) as Hall. unfold rows in Hall. by rewrite Hall.
Qed.

End split_facts.

(** * The functions notebook: what its functions do *)

(** C2. For a list [s] (held at reference [l]), [get_counts] returns pairs
    [(element, count)]: the elements are pairwise distinct and are exactly
    those of [s], they come in the order of their first occurrences in [s],
    and each count is the number of occurrences of its element; on the
    empty list the result is empty. *)
Theorem get_counts_pairs {K : Type} `{EqDecision K}
    (h : gmap ref (list K)) (l : ref) (s : list K) :
  h !! l = Some s →
  ∃ r, get_counts l h = Ok r h
       ∧ NoDup r.*1
       ∧ (∀ x, x ∈ r.*1 ↔ x ∈ s)
       ∧ StronglySorted (first_before s) r.*1
       ∧ (∀ x c, (x, c) ∈ r → c = count_of x s)
       ∧ (s = [] → r = []).
Proof.
  intros Hl. destruct (get_counts_ok h l s Hl) as (r & Hrun & Hkeys & Hcnt).
  exists r. split; [done|]. rewrite Hkeys.
  split; [apply NoDup_distinct|].
  split; [apply elem_of_distinct|].
  split; [apply distinct_first_before|].
  split.
  - intros x c Hin. rewrite <-Hcnt.
    rewrite (dict_lookup_elem_of r x c); [done| |done].
    rewrite Hkeys. apply NoDup_distinct.
  - intros ->. simpl in Hkeys. by apply fmap_nil_inv in Hkeys.
Qed.

Lemma get_counts_pairs_witness :
  let a := ["a"; "c"; "d"; "a"; "c"; "a"; "d"; "b"]%string in
  let h : gmap ref (list string) := {[ 0%nat := a ]} in
  h !! 0%nat = Some a
  ∧ ∃ r, get_counts 0%nat h = Ok r h
         ∧ NoDup r.*1
         ∧ (∀ x, x ∈ r.*1 ↔ x ∈ a)
         ∧ StronglySorted (first_before a) r.*1
         ∧ (∀ x c, (x, c) ∈ r → c = count_of x a)
         ∧ (a = [] → r = []).
Proof.
  intros a h. split; [reflexivity|].
  apply (get_counts_pairs h 0%nat a). reflexivity.
Defined.

(** C3. [double_list] updates the list object it is given and returns
    [None]: the object keeps its length, and every position holds the
    former element times 2, which is twice the number for a number and the
    string written twice for a string. *)
Theorem double_list_in_place (h : gmap ref (list scalar)) (some_list : ref)
    (xs : list scalar) :
  h !! some_list = Some xs →
  ∃ ys, double_list some_list h = Ok tt (<[some_list := ys]> h)
        ∧ length ys = length xs
        ∧ (∀ (pos : nat) x, xs !! pos = Some x → ys !! pos = Some (mul x 2))
        ∧ (∀ n, mul (SInt n) 2 = SInt (2 * n))
        ∧ (∀ t, mul (SStr t) 2 = SStr (t +:+ t)).
Proof.
  intros Hl. exists ((λ v, mul v 2) <$> xs).
  split; [by apply double_list_ok|].
  split; [apply length_fmap|].
  split; [intros pos x Hx; by rewrite list_lookup_fmap, Hx|].
  split.
  - intros n. simpl. f_equal. lia.
  - intros t. unfold mul. f_equal. apply str_repeat_twice.
Qed.

Lemma double_list_in_place_witness :
  let s := [SInt 1; SInt 3; SInt 5; SInt 7] in
  let h : gmap ref (list scalar) := {[ 0%nat := s ]} in
  h !! 0%nat = Some s
  ∧ ∃ ys, double_list 0%nat h = Ok tt (<[0%nat := ys]> h)
          ∧ length ys = length s
          ∧ (∀ (pos : nat) x, s !! pos = Some x → ys !! pos = Some (mul x 2))
          ∧ (∀ n, mul (SInt n) 2 = SInt (2 * n))
          ∧ (∀ t, mul (SStr t) 2 = SStr (t +:+ t)).
Proof.
  intros s h. split; [reflexivity|].
  apply (double_list_in_place h 0%nat s). reflexivity.
Defined.

(** C4. [sorted(strings, key = lambda x: len(x))] returns a new list, a
    permutation of [strings] in nondecreasing order of length, and
    [sorted(student_tuples, key = lambda s: s[2])] a new list, a
    permutation of the tuples in nondecreasing order of the third
    component; the list passed in is unchanged in both cases. *)
Theorem sorted_with_key
    (hs : gmap ref (list string)) (strings : ref) (xs : list string)
    (ht : gmap ref (list student)) (student_tuples : ref) (ts : list student) :
  hs !! strings = Some xs →
  ht !! student_tuples = Some ts →
  (∃ r ys, sorted_by_len strings hs = Ok r (<[r := ys]> hs)
           ∧ ys ≡ₚ xs
           ∧ StronglySorted (λ x y, (String.length x ≤ String.length y)%nat) ys
           ∧ r ≠ strings
           ∧ (<[r := ys]> hs) !! strings = Some xs)
  ∧ (∃ r ys, sorted_by_third student_tuples ht = Ok r (<[r := ys]> ht)
             ∧ ys ≡ₚ ts
             ∧ StronglySorted (λ s t, s.2 ≤ t.2) ys
             ∧ r ≠ student_tuples
             ∧ (<[r := ys]> ht) !! student_tuples = Some ts).
Proof.
  intros Hs Ht. split.
  - destruct (sorted_ok (λ x, len_str x) hs strings xs Hs) as (r & Hrun & Hne & Hold).
    exists r, (sort_by (λ x, len_str x) xs).
    split; [done|]. split; [apply sort_by_perm|]. split; [|done].
    eapply StronglySorted_weaken; [|apply sort_by_sorted].
    unfold key_le, len_str. intros x y. simpl. lia.
  - destruct (sorted_ok (λ s, third s) ht student_tuples ts Ht) as (r & Hrun & Hne & Hold).
    exists r, (sort_by (λ s, third s) ts).
    split; [done|]. split; [apply sort_by_perm|]. split; [|done].
    apply sort_by_sorted.
Qed.

Lemma sorted_with_key_witness :
  let strings := ["foo"; "bar"; "baz"; "f"; "fo"; "b"; "ba"]%string in
  let student_tuples : list student :=
    [("john", "M", 15); ("jane", "F", 12); ("dave", "M", 10)]%string in
  let hs : gmap ref (list string) := {[ 0%nat := strings ]} in
  let ht : gmap ref (list student) := {[ 0%nat := student_tuples ]} in
  (hs !! 0%nat = Some strings ∧ ht !! 0%nat = Some student_tuples)
  ∧ (∃ r ys, sorted_by_len 0%nat hs = Ok r (<[r := ys]> hs)
             ∧ ys ≡ₚ strings
             ∧ StronglySorted (λ x y, (String.length x ≤ String.length y)%nat) ys
             ∧ r ≠ 0%nat
             ∧ (<[r := ys]> hs) !! 0%nat = Some strings)
  ∧ (∃ r ys, sorted_by_third 0%nat ht = Ok r (<[r := ys]> ht)
             ∧ ys ≡ₚ student_tuples
             ∧ StronglySorted (λ s t, s.2 ≤ t.2) ys
             ∧ r ≠ 0%nat
             ∧ (<[r := ys]> ht) !! 0%nat = Some student_tuples).
Proof.
  intros strings student_tuples hs ht. split; [split; reflexivity|].
  apply (sorted_with_key hs 0%nat strings ht 0%nat student_tuples); reflexivity.
Defined.

(** C8. [get_counts] does not change its argument: after the call the list
    object holds what it held before (and so does every other object),
    whereas [double_list] does change the list it is given. *)
Theorem get_counts_keeps_argument {K : Type} `{EqDecision K}
    (h : gmap ref (list K)) (l : ref) (s : list K) :
  h !! l = Some s →
  final (get_counts l h) !! l = Some s
  ∧ final (get_counts l h) = h
  ∧ final (double_list 0%nat {[ 0%nat := [SInt 1; SInt 3; SInt 5; SInt 7] ]}) !! 0%nat
    = Some [SInt 2; SInt 6; SInt 10; SInt 14].
Proof.
  intros Hl. destruct (get_counts_ok h l s Hl) as (r & -> & _). simpl.
  split; [done|]. split; [done|].
  rewrite (double_list_ok _ 0%nat [SInt 1; SInt 3; SInt 5; SInt 7]) by reflexivity.
  simpl. by rewrite lookup_insert_eq.
Qed.

Lemma get_counts_keeps_argument_witness :
  let a := ["a"; "c"; "d"; "a"; "c"; "a"; "d"; "b"]%string in
  let h : gmap ref (list string) := {[ 0%nat := a ]} in
  h !! 0%nat = Some a
  ∧ final (get_counts 0%nat h) !! 0%nat = Some a
  ∧ final (get_counts 0%nat h) = h
  ∧ final (double_list 0%nat {[ 0%nat := [SInt 1; SInt 3; SInt 5; SInt 7] ]}) !! 0%nat
    = Some [SInt 2; SInt 6; SInt 10; SInt 14].
Proof.
  intros a h. split; [reflexivity|].
  apply (get_counts_keeps_argument h 0%nat a). reflexivity.
Defined.

(** C9. For every integer [n], what [fib(n)] prints is the list [fib2(n)]
    returns: the first [n] Fibonacci numbers 1, 1, 2, 3, 5, ... when
    [n >= 2], the single number 1 when [n < 2]. *)
Theorem fib_prints_fib2 (n : Z) (out : list Z) :
  ∃ series,
    fib n out = Ok tt (out ++ series)
    ∧ fib2 n out = Ok series out
    ∧ series = (if decide (2 ≤ n) then first_fibonacci (Z.to_nat n) else [1])
    ∧ first_fibonacci 5 = [1; 1; 2; 3; 5].
Proof.
  exists (first_fibonacci (Z.to_nat (Z.max n 1))).
  split; [apply fib_ok|]. split; [apply fib2_ok|]. split; [|reflexivity].
  destruct (decide (2 ≤ n)).
  - by rewrite Z.max_l by lia.
  - by rewrite Z.max_r by lia.
Qed.

(** * The notebooks as wholes: files, errors, authored code *)

Import Authored.






(** C1, as stated, fails: not every function the notebooks define hands
    its work to a third-party library. *)
Lemma authored_functions_do_not_delegate :
  ¬ Forall delegates (ensemble_defs ++ functions_defs).
Proof.
  intros Hall. apply Forall_cons in Hall as [Hd _].
  unfold delegates, third_party in Hd. apply Exists_exists in Hd as (c & Hc & pkg & Hpkg).
  simpl in Hc. set_unfold. destruct Hc as [->|[->|[->|[->|[->|[->|[]]]]]]]; discriminate.
Qed.

(** C1, amended. The ensemble notebook defines no function of its own; the
    functions notebook defines [get_counts], [double_list], two lambdas,
    [fib] and [fib2], which use the language alone and compute, all by
    themselves, counts, a list transformation and a series. *)
Theorem authored_code :
  ensemble_defs = []
  ∧ Forall self_contained functions_defs
  ∧ get_counts 0%nat
      ({[ 0%nat := ["a"; "c"; "d"; "a"; "c"; "a"; "d"; "b"]%string ]} : gmap ref (list string))
    = Ok [("a", 3); ("c", 2); ("d", 2); ("b", 1)]%string
         {[ 0%nat := ["a"; "c"; "d"; "a"; "c"; "a"; "d"; "b"]%string ]}
  ∧ double_list 0%nat {[ 0%nat := [SStr "pippo"; SStr "pluto"; SStr "paperino"] ]}
    = Ok tt {[ 0%nat := [SStr "pippopippo"; SStr "plutopluto"; SStr "paperinopaperino"] ]}
  ∧ fib 5 [] = Ok tt [1; 1; 2; 3; 5]
  ∧ fib2 5 tt = Ok [1; 1; 2; 3; 5] tt.
Proof.
  split; [reflexivity|].
  split; [repeat constructor|].
  split; [reflexivity|].
  split; [vm_compute; reflexivity|].
  split; reflexivity.
Qed.

(** * The ensemble notebook: statistics and the split *)

(** C7, as stated, fails in one part. Scores are binary64 numbers and
    the edges of a band are the binary64 results of [mean - std] and
    [mean + std], each with its own rounding error: for the fold scores
    0.5, 1.0, 0.5 half the height of the band is
    8492068896701029 / 2^55 while the standard deviation numpy computes is
    8492068896701030 / 2^55. *)
Lemma band_half_width_is_not_std :
  ¬ (∀ sum_long x train_score val_score,
       Scores.folds 3 train_score → Scores.folds 3 val_score →
       Forall2 (Scores.shows sum_long) [train_score; val_score; train_score; val_score]
         (Scores.curve_cell sum_long x train_score val_score)).
Proof.
  intros Hshows.
  assert (Scores.folds 3 [[0.5; 1; 0.5]%float]) as Hfolds by (repeat constructor).
  specialize (Hshows (λ _, 0%float) [1%float] [[0.5; 1; 0.5]%float] [[0.5; 1; 0.5]%float]
                Hfolds Hfolds).
  apply Forall2_cons_1 in Hshows as [Hband _].
  vm_compute in Hband. discriminate.
Qed.

(** C7, amended. What the ensemble notebook computes from score arrays
    are means and standard deviations in binary64: [np.mean] adds the
    scores (from left to right, the arrays having three or five entries
    to add) and divides by their number, [np.std] is the square root of
    the mean of the squared deviations from that mean. The mean of a
    [cross_val_score] vector and the row means of a score matrix are
    rounded to two decimals; in the figures the line of a score matrix is
    that of its row means and, where a band is drawn, the band runs at
    each row from [mean - std] to [mean + std] of that row, each the
    binary64 result of the operation. The depth figure draws the two lines
    and no band. As an instance, the figure of the fold scores 0.5, 1.0,
    0.5 for training and 0.7, 0.7, 0.7 for validation: the training line
    is at 0.6666666666666666 with a band from 0.4309644062711508 to
    0.9023689270621824 (the standard deviation is 0.23570226039551584),
    and the validation line at 0.6999999999999998 with a band from
    0.6999999999999997 to 0.7 (the standard deviation of the three equal
    scores is 2^-53, not 0). The numbers that have no finite binary
    expansion are written in hexadecimal. *)
Theorem score_statistics (sum_long : list float → float) (round2 : float → float)
    (x scores : list float)
    (train_score val_score bag_val_score rf_val_score : list (list float)) :
  (∀ a b c : float, Scores.mean sum_long [a; b; c] = ((((0 + a) + b) + c) / 3)%float)
  ∧ (∀ a b c : float,
       let m := Scores.mean sum_long [a; b; c] in
       Scores.std sum_long [a; b; c]
       = PrimFloat.sqrt
           ((((0 + (a - m) * (a - m)) + (b - m) * (b - m)) + (c - m) * (c - m)) / 3)%float)
  ∧ (∀ a b c d e : float,
       Scores.mean sum_long [a; b; c; d; e] = ((((((0 + a) + b) + c) + d) + e) / 5)%float)
  ∧ Scores.mean sum_long [] = nan
  ∧ Scores.cv_estimate sum_long round2 scores = round2 (Scores.mean sum_long scores)
  ∧ Scores.val_summary sum_long round2 val_score
    = (λ row, round2 (Scores.mean sum_long row)) <$> val_score
  ∧ Forall2 (Scores.drawn_from sum_long) [train_score; val_score; train_score; val_score]
      (Scores.curve_cell sum_long x train_score val_score)
  ∧ Forall2 (Scores.drawn_from sum_long) [val_score; train_score]
      (Scores.depth_cell sum_long x train_score val_score)
  ∧ Forall2 (Scores.drawn_from sum_long)
      [bag_val_score; rf_val_score; bag_val_score; rf_val_score]
      (Scores.compare_cell sum_long x bag_val_score rf_val_score)
  ∧ Scores.curve_cell sum_long [1%float]
        [[0.5; 1; 0.5]%float]
        [[0x1.6666666666666p-1; 0x1.6666666666666p-1; 0x1.6666666666666p-1]%float]
    = [ Scores.Band [1%float] [0x1.b94ebbbab2d77p-2%float] [0x1.ce034ccd513eep-1%float]
      ; Scores.Band [1%float] [0x1.6666666666664p-1%float] [0x1.6666666666666p-1%float]
      ; Scores.Line [1%float] [0x1.5555555555555p-1%float]
      ; Scores.Line [1%float] [0x1.6666666666665p-1%float] ]
  ∧ Scores.std sum_long [0.5; 1; 0.5]%float = 0x1.e2b7dddfefa66p-3%float
  ∧ Scores.std sum_long
      [0x1.6666666666666p-1; 0x1.6666666666666p-1; 0x1.6666666666666p-1]%float
    = 0x1p-53%float.
Proof.
  split; [reflexivity|]. split; [reflexivity|]. split; [reflexivity|].
  split; [reflexivity|]. split; [reflexivity|].
  split; [unfold Scores.val_summary, Scores.mean_axis1; by rewrite <-list_fmap_compose|].
  split; [|split; [|split]].
  - unfold Scores.curve_cell.
    repeat (constructor; [first [apply band_drawn_from | reflexivity]|]). constructor.
  - unfold Scores.depth_cell. repeat (constructor; [reflexivity|]). constructor.
  - unfold Scores.compare_cell.
    repeat (constructor; [first [apply band_drawn_from | reflexivity]|]). constructor.
  - split; [reflexivity|]. split; reflexivity.
Qed.

(** C10. The data are split with [test_size=0.2] and [random_state=42]:
    the test set gets a fifth of the rows (rounded up) and the training set
    the other four fifths, not a third and two thirds (3024 and 12096 of
    the 15120 rows of the forest data); the two sets partition the rows;
    and, the seed being fixed, the split does not depend on the state of
    the global generator, so that two runs on the same data give the same
    partition. *)
Theorem notebook_split_80_20 {rng : Type}
    (seeded : Z → rng) (permutation : rng → nat → list nat)
    {A B : Type} (X : list A) (y : list B) (global : rng) :
  (∀ g n, permutation g n ≡ₚ seq 0 n) →
  length y = length X →
  (2 ≤ length X)%nat →
  ∃ X_train X_test y_train y_test,
    Split.notebook_split seeded permutation X y global
      = inr (X_train, X_test, y_train, y_test)
    ∧ Z.of_nat (length X_test) = (Z.of_nat (length X) + 4) / 5
    ∧ (length X_train = length X - length X_test)%nat
    ∧ length y_test = length X_test
    ∧ length y_train = length X_train
    ∧ (Z.of_nat (length X) mod 5 = 0 →
       5 * Z.of_nat (length X_test) = Z.of_nat (length X)
       ∧ 5 * Z.of_nat (length X_train) = 4 * Z.of_nat (length X))
    ∧ X_train ++ X_test ≡ₚ X
    ∧ y_train ++ y_test ≡ₚ y
    ∧ (∀ global', Split.notebook_split seeded permutation X y global'
                  = inr (X_train, X_test, y_train, y_test))
    ∧ (length X = Split.forest_rows →
       Z.of_nat (length X_test) = 3024
       ∧ Z.of_nat (length X_train) = 12096
       ∧ 3 * Z.of_nat (length X_test) ≠ Z.of_nat (length X)).
Proof.
  intros Hperm Hy Hn.
  pose proof (n_test_le (length X)) as Hle.
  pose proof (n_test_fifth (length X)) as Hfifth.
  destruct (split_rows permutation Hperm X (seeded 42) (length X)
              (Split.n_test_of (1 # 5) (length X)) eq_refl Hle) as (HXte & HXtr & HXp).
  destruct (split_rows permutation Hperm y (seeded 42) (length X)
              (Split.n_test_of (1 # 5) (length X)) Hy Hle) as (Hyte & Hytr & Hyp).
  set (n_test := Split.n_test_of (1 # 5) (length X)) in *.
  set (perm := permutation (seeded 42) (length X)) in *.
  assert (Z.of_nat n_test = (Z.of_nat (length X) + 4) / 5) as Htest.
  { rewrite Hfifth. apply Z2Nat.id. apply Z.div_pos; lia. }
  assert (length X - n_test ≠ 0)%nat as Htrain.
  { assert (Z.of_nat n_test < Z.of_nat (length X)); [|lia].
    rewrite Htest. Z.div_mod_to_equations. lia. }
  assert (∀ g, Split.notebook_split seeded permutation X y g
               = inr (Split.rows X (take (length X - n_test) (drop n_test perm)),
                      Split.rows X (take n_test perm),
                      Split.rows y (take (length X - n_test) (drop n_test perm)),
                      Split.rows y (take n_test perm))) as Hrun.
  { intros g. unfold Split.notebook_split, Split.train_test_split.
    rewrite decide_False by (intros Hne; by apply Hne).
    fold n_test. by rewrite decide_False. }
  do 4 eexists. split; [apply Hrun|].
  rewrite HXte, HXtr, Hyte, Hytr.
  split; [done|]. split; [done|]. split; [done|]. split; [done|].
  split.
  { intros Hmod. rewrite Nat2Z.inj_sub by done. rewrite Htest.
    revert Hmod. Z.div_mod_to_equations. lia. }
  split; [done|]. split; [done|]. split; [done|].
  intros Hrows. rewrite Nat2Z.inj_sub by done. rewrite Htest.
  unfold Split.forest_rows in Hrows.
  assert (Z.of_nat (length X) = 15120) as -> by lia.
  change ((15120 + 4) / 5) with 3024. lia.
Qed.

Lemma notebook_split_80_20_witness :
  let X : list Z := [10; 11; 12; 13; 14; 15; 16; 17; 18; 19] in
  let y : list Z := [0; 1; 0; 1; 0; 1; 0; 1; 0; 1] in
  let permutation : unit → nat → list nat := λ _ n, seq 0 n in
  ((∀ g n, permutation g n ≡ₚ seq 0 n) ∧ length y = length X ∧ (2 ≤ length X)%nat)
  ∧ ∃ X_train X_test y_train y_test,
      Split.notebook_split (λ _, tt) permutation X y tt
        = inr (X_train, X_test, y_train, y_test)
      ∧ Z.of_nat (length X_test) = (Z.of_nat (length X) + 4) / 5
      ∧ (length X_train = length X - length X_test)%nat
      ∧ length y_test = length X_test
      ∧ length y_train = length X_train
      ∧ (Z.of_nat (length X) mod 5 = 0 →
         5 * Z.of_nat (length X_test) = Z.of_nat (length X)
         ∧ 5 * Z.of_nat (length X_train) = 4 * Z.of_nat (length X))
      ∧ X_train ++ X_test ≡ₚ X
      ∧ y_train ++ y_test ≡ₚ y
      ∧ (∀ global', Split.notebook_split (λ _, tt) permutation X y global'
                    = inr (X_train, X_test, y_train, y_test))
      ∧ (length X = Split.forest_rows →
         Z.of_nat (length X_test) = 3024
         ∧ Z.of_nat (length X_train) = 12096
         ∧ 3 * Z.of_nat (length X_test) ≠ Z.of_nat (length X)).
Proof.
  intros X y permutation.
  split; [split; [intros; reflexivity | split; [reflexivity | simpl; lia]]|].
  apply (notebook_split_80_20 (λ _, tt) permutation X y tt);
    [intros; reflexivity | reflexivity | simpl; lia].
Defined.

(** * Further properties of the functions notebook *)

Import Cells.

(** ** Counting *)

Lemma sum_cons (a : Z) (xs : list Z) : sum (a :: xs) = a + sum xs.
Proof. reflexivity. Qed.

Lemma sum_app (xs ys : list Z) : sum (xs ++ ys) = sum xs + sum ys.
Proof.
  induction xs as [|a xs IH]; [reflexivity|].
  rewrite <-app_comm_cons, !sum_cons, IH. lia.
Qed.

Section counting_facts.
Context {K : Type} `{EqDecision K}.
Implicit Types (s : list K) (r : list (K * Z)) (x : K).

Lemma pairs_of_keys r (f : K → Z) :
  (∀ x c, (x, c) ∈ r → c = f x) → r = (λ x, (x, f x)) <$> r.*1.
Proof.
  induction r as [|[x c] r IH]; intros Hf; simpl; [done|].
  rewrite (Hf x c) by left. f_equal. apply IH. intros y d Hy. apply Hf. by right.
Qed.

(** The result, in one expression: each distinct element with its count. *)
Lemma get_counts_closed (h : gmap ref (list K)) (l : ref) s :
  h !! l = Some s →
  get_counts l h = Ok ((λ x, (x, count_of x s)) <$> distinct s) h.
Proof.
  intros Hl. destruct (get_counts_ok h l s Hl) as (r & Hrun & Hkeys & Hcnt).
  rewrite Hrun. f_equal. rewrite <-Hkeys. apply pairs_of_keys.
  intros x c Hin. rewrite <-Hcnt.
  rewrite (dict_lookup_elem_of r x c); [done| |done].
  rewrite Hkeys. apply NoDup_distinct.
Qed.

Lemma sum_indicator (l : list K) x :
  NoDup l →
  sum ((λ y, if decide (y = x) then 1 else 0) <$> l) = if decide (x ∈ l) then 1 else 0.
Proof.
  induction 1 as [|y l Hy Hl IH].
  - destruct (decide (x ∈ [])) as [Hin|]; [by apply elem_of_nil in Hin | done].
  - rewrite fmap_cons, sum_cons, IH.
    destruct (decide (x ∈ l)) as [Hin|Hout], (decide (x ∈ y :: l)) as [Hin'|Hout'],
             (decide (y = x)) as [Heq|Hne]; try lia.
    + subst y. contradiction.
    + exfalso. apply Hout'. by right.
    + exfalso. apply Hout'. by right.
    + exfalso. apply elem_of_cons in Hin' as [?|?]; congruence.
    + exfalso. apply Hout'. subst y. left.
Qed.

Lemma sum_count_of (l : list K) s :
  NoDup l →
  sum ((λ y, count_of y s) <$> l) = Z.of_nat (length (filter (λ x, x ∈ l) s)).
Proof.
  intros Hl. induction s as [|x s IH]; simpl count_of.
  - clear Hl. induction l as [|y l IHl]; [done|].
    rewrite fmap_cons, sum_cons, IHl. done.
  - assert (∀ l', sum ((λ y, (if decide (y = x) then 1 else 0) + count_of y s) <$> l')
                  = sum ((λ y, if decide (y = x) then 1 else 0) <$> l')
                    + sum ((λ y, count_of y s) <$> l')) as Hsplit.
    { induction l' as [|y l' IHl']; [done|].
      rewrite !fmap_cons, !sum_cons, IHl'. lia. }
    rewrite Hsplit, IH, sum_indicator by done.
    rewrite filter_cons. destruct (decide (x ∈ l)); simpl; lia.
Qed.

Lemma count_of_perm x s s' : s ≡ₚ s' → count_of x s = count_of x s'.
Proof.
  induction 1 as [|y s s' _ IH|y z s|s1 s2 s3 _ IH1 _ IH2]; simpl; lia.
Qed.

Lemma distinct_perm s s' : s ≡ₚ s' → distinct s ≡ₚ distinct s'.
Proof.
  intros Hp. apply NoDup_Permutation; [apply NoDup_distinct..|].
  intros x. rewrite !elem_of_distinct. by rewrite Hp.
Qed.

Lemma distinct_fmap_inj {L : Type} `{EqDecision L} (f : K → L) `{!Inj (=) (=) f} s :
  distinct (f <$> s) = f <$> distinct s.
Proof.
  induction s as [|x s IH]; [done|].
  rewrite fmap_cons. cbn [distinct]. rewrite fmap_cons. f_equal. rewrite IH.
  generalize (distinct s). intros l. induction l as [|y l IHl]; [done|].
  rewrite fmap_cons, !filter_cons. destruct (decide (y ≠ x)) as [Hne|Heq].
  - rewrite decide_True by (intros Hf; by apply Hne, (inj f)).
    rewrite fmap_cons. by rewrite IHl.
  - rewrite decide_False; [done|]. intros Hne. apply Heq. intros ->. by apply Hne.
Qed.

Lemma count_of_fmap_inj {L : Type} `{EqDecision L} (f : K → L) `{!Inj (=) (=) f} x s :
  count_of (f x) (f <$> s) = count_of x s.
Proof.
  induction s as [|y s IH]; [done|].
  rewrite fmap_cons. cbn [count_of]. rewrite IH.
  destruct (decide (x = y)) as [->|Hne].
  - by rewrite decide_True.
  - rewrite decide_False; [done|]. intros Hf. by apply Hne, (inj f).
Qed.

End counting_facts.

(** ** Strings written twice *)

Section string_facts.
Implicit Types (s t u : string).

Lemma append_cons c s t : String c s +:+ t = String c (s +:+ t).
Proof. reflexivity. Qed.

Lemma append_empty_r s : s +:+ "" = s.
Proof. induction s as [|c s IH]; [reflexivity|]. by rewrite append_cons, IH. Qed.

Lemma append_assoc s t u : (s +:+ t) +:+ u = s +:+ (t +:+ u).
Proof. induction s as [|c s IH]; [reflexivity|]. by rewrite !append_cons, IH. Qed.

Lemma append_length s t :
  String.length (s +:+ t) = (String.length s + String.length t)%nat.
Proof.
  induction s as [|c s IH]; [reflexivity|]. rewrite append_cons. simpl. by rewrite IH.
Qed.

Lemma append_inj_length s t u (w : string) :
  String.length s = String.length t → s +:+ u = t +:+ w → s = t.
Proof.
  revert t. induction s as [|c s IH]; intros [|d t]; simpl; try done.
  intros [= Hlen]. rewrite !append_cons. intros [= -> Heq]. f_equal. by apply IH.
Qed.

Lemma append_twice_inj s t : s +:+ s = t +:+ t → s = t.
Proof.
  intros Heq. apply (append_inj_length s t s t); [|done].
  apply (f_equal String.length) in Heq. rewrite !append_length in Heq. lia.
Qed.

Lemma mul_2_inj (x y : scalar) : mul x 2 = mul y 2 → x = y.
Proof.
  destruct x as [n|s], y as [m|t]; simpl; try done.
  - intros [= Heq]. f_equal. lia.
  - intros [= Heq]. f_equal. apply append_twice_inj.
    by rewrite !append_empty_r in Heq.
Qed.

#[local] Instance mul_2_Inj : Inj (=) (=) (λ v, mul v 2).
Proof. intros x y. apply mul_2_inj. Qed.

Lemma mul_2_2 (x : scalar) : mul (mul x 2) 2 = mul x 4.
Proof.
  destruct x as [n|s]; simpl; f_equal; [lia|].
  by rewrite !append_empty_r, append_assoc.
Qed.

End string_facts.

(** ** What more [get_counts] and [double_list] guarantee *)

Lemma distinct_length {K : Type} `{EqDecision K} (s : list K) :
  (length (distinct s) ≤ length s)%nat.
Proof.
  induction s as [|x s IH]; simpl; [done|].
  apply le_n_S. etrans; [apply length_filter | exact IH].
Qed.

Lemma filter_in_distinct {K : Type} `{EqDecision K} (s : list K) :
  filter (λ x, x ∈ distinct s) s = s.
Proof.
  assert (∀ t : list K, (∀ x, x ∈ t → x ∈ distinct s) →
                        filter (λ x, x ∈ distinct s) t = t) as Hgen.
  { induction t as [|x t IH]; intros Ht; [done|].
    rewrite filter_cons_True by (apply Ht; left).
    f_equal. apply IH. intros y Hy. apply Ht. by right. }
  apply Hgen. intros x. by rewrite elem_of_distinct.
Qed.

(** X1. The counts returned by [get_counts] add up to the length of the
    list, every count is at least 1, and there are at most as many pairs
    as the list has elements. *)
Theorem get_counts_add_up {K : Type} `{EqDecision K}
    (h : gmap ref (list K)) (l : ref) (s : list K) :
  h !! l = Some s →
  ∃ r, get_counts l h = Ok r h
       ∧ sum r.*2 = Z.of_nat (length s)
       ∧ Forall (λ c, 1 ≤ c) r.*2
       ∧ (length r ≤ length s)%nat.
Proof.
  intros Hl. eexists. split; [by apply get_counts_closed|].
  rewrite <-list_fmap_compose.
  split.
  { change (sum ((λ x, count_of x s) <$> distinct s) = Z.of_nat (length s)).
    rewrite sum_count_of by apply NoDup_distinct. by rewrite filter_in_distinct. }
  split.
  { apply Forall_fmap, Forall_forall. intros x Hx. simpl.
    apply (proj1 (elem_of_distinct s x)) in Hx.
    pose proof (count_of_pos x s Hx). lia. }
  rewrite length_fmap. apply distinct_length.
Qed.

Lemma get_counts_add_up_witness :
  let a := ["a"; "c"; "d"; "a"; "c"; "a"; "d"; "b"]%string in
  let h : gmap ref (list string) := {[ 0%nat := a ]} in
  h !! 0%nat = Some a
  ∧ ∃ r, get_counts 0%nat h = Ok r h
         ∧ sum r.*2 = Z.of_nat (length a)
         ∧ Forall (λ c, 1 ≤ c) r.*2
         ∧ (length r ≤ length a)%nat.
Proof.
  intros a h. split; [reflexivity|].
  apply (get_counts_add_up h 0%nat a). reflexivity.
Defined.

(** X2. Reordering the list only reorders the answer: on a permutation of
    [s], [get_counts] returns the same pairs as on [s], possibly in another
    order. *)
Theorem get_counts_permutation {K : Type} `{EqDecision K}
    (h h' : gmap ref (list K)) (l l' : ref) (s s' : list K) :
  h !! l = Some s →
  h' !! l' = Some s' →
  s ≡ₚ s' →
  ∃ r r', get_counts l h = Ok r h
          ∧ get_counts l' h' = Ok r' h'
          ∧ r ≡ₚ r'.
Proof.
  intros Hl Hl' Hp. do 2 eexists.
  split; [by apply get_counts_closed|]. split; [by apply get_counts_closed|].
  rewrite (distinct_perm s s' Hp).
  apply reflexive_eq, list_fmap_ext. intros _ x _. f_equal. by apply count_of_perm.
Qed.

Lemma get_counts_permutation_witness :
  let s := ["a"; "c"; "a"]%string in
  let s' := ["c"; "a"; "a"]%string in
  let h : gmap ref (list string) := {[ 0%nat := s ]} in
  let h' : gmap ref (list string) := {[ 0%nat := s' ]} in
  (h !! 0%nat = Some s ∧ h' !! 0%nat = Some s' ∧ s ≡ₚ s')
  ∧ ∃ r r', get_counts 0%nat h = Ok r h
            ∧ get_counts 0%nat h' = Ok r' h'
            ∧ r ≡ₚ r'.
Proof.
  intros s s' h h'.
  assert (s ≡ₚ s') as Hp by apply Permutation_swap.
  split; [split; [reflexivity | split; [reflexivity | exact Hp]]|].
  apply (get_counts_permutation h h' 0%nat 0%nat s s'); [reflexivity | reflexivity | exact Hp].
Defined.

(** X3. Counting after doubling, for lists of integers and strings: once
    [double_list] has run on such a list, [get_counts] on the same object
    returns the pairs it would have returned before, with every element
    doubled and every count unchanged, in the same order. (Doubling is
    one-to-one on integers and on strings; it is not on floating-point
    numbers, where large values overflow to one infinity, and the
    statement does not extend to them.) *)
Theorem get_counts_after_double_list
    (h : gmap ref (list scalar)) (l : ref) (xs : list scalar) :
  h !! l = Some xs →
  ∃ r h', get_counts l h = Ok r h
          ∧ (let* _ := double_list l in get_counts l) h
            = Ok ((λ p, (mul p.1 2, p.2)) <$> r) h'
          ∧ h' !! l = Some ((λ v, mul v 2) <$> xs).
Proof.
  intros Hl. do 2 eexists. split; [by apply get_counts_closed|].
  unfold bind. rewrite (double_list_ok h l xs Hl).
  assert (Inj (=) (=) (λ v, mul v 2)) as Hinj by (intros x y; apply mul_2_inj).
  rewrite (get_counts_closed _ l ((λ v, mul v 2) <$> xs)) by apply lookup_insert_eq.
  split; [|apply lookup_insert_eq].
  f_equal. rewrite (distinct_fmap_inj (λ v, mul v 2)).
  rewrite <-!list_fmap_compose. apply list_fmap_ext. intros _ x _. simpl.
  f_equal. apply (count_of_fmap_inj (λ v, mul v 2)).
Qed.

Lemma get_counts_after_double_list_witness :
  let xs := [SInt 1; SStr "a"; SInt 1] in
  let h : gmap ref (list scalar) := {[ 0%nat := xs ]} in
  h !! 0%nat = Some xs
  ∧ ∃ r h', get_counts 0%nat h = Ok r h
            ∧ (let* _ := double_list 0%nat in get_counts 0%nat) h
              = Ok ((λ p, (mul p.1 2, p.2)) <$> r) h'
            ∧ h' !! 0%nat = Some ((λ v, mul v 2) <$> xs).
Proof.
  intros xs h. split; [reflexivity|].
  apply (get_counts_after_double_list h 0%nat xs). reflexivity.
Defined.

(** X4. Calling [double_list] twice on the same list multiplies every
    element by 4: numbers are quadrupled, strings written four times. *)
Theorem double_list_twice (h : gmap ref (list scalar)) (l : ref) (xs : list scalar) :
  h !! l = Some xs →
  (let* _ := double_list l in double_list l) h
  = Ok tt (<[l := (λ v, mul v 4) <$> xs]> h).
Proof.
  intros Hl. unfold bind. rewrite (double_list_ok h l xs Hl).
  rewrite (double_list_ok _ l ((λ v, mul v 2) <$> xs)) by apply lookup_insert_eq.
  rewrite insert_insert_eq. do 2 f_equal.
  rewrite <-list_fmap_compose. apply list_fmap_ext. intros _ x _. apply mul_2_2.
Qed.

Lemma double_list_twice_witness :
  let xs := [SInt 1; SStr "ab"] in
  let h : gmap ref (list scalar) := {[ 0%nat := xs ]} in
  h !! 0%nat = Some xs
  ∧ (let* _ := double_list 0%nat in double_list 0%nat) h
    = Ok tt (<[0%nat := (λ v, mul v 4) <$> xs]> h).
Proof.
  intros xs h. split; [reflexivity|].
  apply (double_list_twice h 0%nat xs). reflexivity.
Defined.

(** ** Loops that append *)

Section append_facts.
Context {A B : Type}.
Implicit Types (h : gmap ref (list B)) (acc : list B).

Lemma append_ok h (l : ref) acc (v : B) :
  h !! l = Some acc → append l v h = Ok tt (<[l := acc ++ [v]]> h).
Proof. intros Hl. unfold append, bind, deref. by rewrite Hl. Qed.

(** Appending [F x] for every [x] of [xs] extends the list by the image of
    [xs], in order. *)
Lemma for_each_append (F : A → B) (xs : list A) h (l : ref) acc :
  h !! l = Some acc →
  for_each xs (λ x, append l (F x)) h = Ok tt (<[l := acc ++ (F <$> xs)]> h).
Proof.
  revert h acc. induction xs as [|x xs IH]; intros h acc Hl.
  - simpl. unfold ret. by rewrite app_nil_r, insert_id.
  - rewrite (for_each_cons_ok _ _ _ _ (<[l := acc ++ [F x]]> h)) by by apply append_ok.
    rewrite (IH _ (acc ++ [F x])) by apply lookup_insert_eq.
    rewrite insert_insert_eq, fmap_cons, <-app_assoc. done.
Qed.

End append_facts.

(** X5. The cleaning loop leaves in [result], a new list, one string for
    each name and in the same order: the name passed through the functions
    of [clean_ops] from first to last (with [[strip, capitalize]], the
    stripped name capitalized); the list [names] is not changed. *)
Theorem clean_names_result (clean_ops : list (string → string))
    (h : gmap ref (list string)) (names : ref) (xs : list string) :
  h !! names = Some xs →
  ∃ result,
    clean_names clean_ops names h
      = Ok result (<[result := apply_ops clean_ops <$> xs]> h)
    ∧ result ≠ names
    ∧ (<[result := apply_ops clean_ops <$> xs]> h) !! names = Some xs
    ∧ length (apply_ops clean_ops <$> xs) = length xs
    ∧ (∀ strip capitalize s, apply_ops [strip; capitalize] s = capitalize (strip s)).
Proof.
  intros Hn. exists (fresh (dom h)).
  assert (fresh (dom h) ≠ names) as Hne.
  { intros Heq. apply (is_fresh (dom h)). rewrite Heq. apply elem_of_dom. by exists xs. }
  split.
  { unfold clean_names, bind at 1, alloc. unfold bind at 1, deref.
    rewrite lookup_insert_ne, Hn by done. unfold bind.
    rewrite (for_each_append (apply_ops clean_ops) xs _ (fresh (dom h)) [])
      by apply lookup_insert_eq.
    by rewrite insert_insert_eq. }
  split; [done|]. split; [by rewrite lookup_insert_ne|].
  split; [apply length_fmap | reflexivity].
Qed.

Lemma clean_names_result_witness :
  let xs := ["Alfred  "; "carl"; "  Danny    "; "lucy   "]%string in
  let h : gmap ref (list string) := {[ 0%nat := xs ]} in
  let ops : list (string → string) := [λ s, s +:+ "!"; λ s, "<" +:+ s]%string in
  h !! 0%nat = Some xs
  ∧ ∃ result,
      clean_names ops 0%nat h = Ok result (<[result := apply_ops ops <$> xs]> h)
      ∧ result ≠ 0%nat
      ∧ (<[result := apply_ops ops <$> xs]> h) !! 0%nat = Some xs
      ∧ length (apply_ops ops <$> xs) = length xs
      ∧ (∀ strip capitalize s, apply_ops [strip; capitalize] s = capitalize (strip s)).
Proof.
  intros xs h ops. split; [reflexivity|].
  apply (clean_names_result ops h 0%nat xs). reflexivity.
Defined.

(** ** Stability of [sorted] *)

Section stable_facts.
Context {A : Type} (key : A → Z).
Implicit Types (l : list A).

Lemma filter_insert_by (k : Z) x l :
  filter (λ y, key y = k) (insert_by key x l)
  = filter (λ y, key y = k) (x :: l).
Proof.
  induction l as [|y l IH]; simpl; [done|].
  destruct (decide (key x ≤ key y)) as [Hle|Hgt]; [done|].
  rewrite filter_cons, IH, !filter_cons.
  destruct (decide (key y = k)), (decide (key x = k)); try done. lia.
Qed.

Lemma filter_sort_by (k : Z) l :
  filter (λ y, key y = k) (sort_by key l) = filter (λ y, key y = k) l.
Proof.
  induction l as [|x l IH]; simpl; [done|].
  by rewrite filter_insert_by, !filter_cons, IH.
Qed.

Lemma sort_by_sorted_id l : StronglySorted (key_le key) l → sort_by key l = l.
Proof.
  induction 1 as [|x l Hl IH Hall]; simpl; [done|]. rewrite IH.
  destruct Hall as [|y l Hxy _]; simpl; [done|].
  by rewrite decide_True.
Qed.

End stable_facts.

(** X6. [sorted] with a key is stable: the elements that have the same key
    come out in the order they had in the input (so the strings of equal
    length, and the students of equal age, keep their relative order). *)
Theorem sorted_is_stable {A : Type} (key : A → Z)
    (h : gmap ref (list A)) (iterable : ref) (l : list A) :
  h !! iterable = Some l →
  ∃ r ys, sorted key iterable h = Ok r (<[r := ys]> h)
          ∧ ∀ k, filter (λ x, key x = k) ys = filter (λ x, key x = k) l.
Proof.
  intros Hl. destruct (sorted_ok key h iterable l Hl) as (r & Hrun & _).
  exists r, (sort_by key l). split; [done|]. intros k. apply filter_sort_by.
Qed.

Lemma sorted_is_stable_witness :
  let strings := ["foo"; "bar"; "baz"; "f"; "fo"; "b"; "ba"]%string in
  let h : gmap ref (list string) := {[ 0%nat := strings ]} in
  h !! 0%nat = Some strings
  ∧ ∃ r ys, sorted len_str 0%nat h = Ok r (<[r := ys]> h)
            ∧ ∀ k, filter (λ x, len_str x = k) ys = filter (λ x, len_str x = k) strings.
Proof.
  intros strings h. split; [reflexivity|].
  apply (sorted_is_stable len_str h 0%nat strings). reflexivity.
Defined.

(** X7. On a list that is already in nondecreasing order of the key,
    [sorted] returns a new list with exactly the same contents; in
    particular sorting the result of [sorted] again changes nothing. *)
Theorem sorted_of_sorted {A : Type} (key : A → Z)
    (h : gmap ref (list A)) (iterable : ref) (l : list A) :
  h !! iterable = Some l →
  StronglySorted (key_le key) l →
  (∃ r, sorted key iterable h = Ok r (<[r := l]> h) ∧ r ≠ iterable)
  ∧ sort_by key (sort_by key l) = sort_by key l.
Proof.
  intros Hl Hs. split.
  - destruct (sorted_ok key h iterable l Hl) as (r & Hrun & Hne & _).
    exists r. rewrite (sort_by_sorted_id key l Hs) in Hrun. done.
  - apply sort_by_sorted_id, sort_by_sorted.
Qed.

Lemma sorted_of_sorted_witness :
  let strings := ["f"; "fo"; "ba"; "foo"]%string in
  let h : gmap ref (list string) := {[ 0%nat := strings ]} in
  (h !! 0%nat = Some strings ∧ StronglySorted (key_le len_str) strings)
  ∧ (∃ r, sorted len_str 0%nat h = Ok r (<[r := strings]> h) ∧ r ≠ 0%nat)
  ∧ sort_by len_str (sort_by len_str strings) = sort_by len_str strings.
Proof.
  intros strings h.
  assert (StronglySorted (key_le len_str) strings) as Hs.
  { unfold strings, key_le, len_str. repeat constructor; simpl; lia. }
  split; [split; [reflexivity | exact Hs]|].
  apply (sorted_of_sorted len_str h 0%nat strings); [reflexivity | exact Hs].
Defined.

(** ** The series of [fibo.py] *)

Section series_facts.

Lemma first_fibonacci_lookup (k i : nat) (a : Z) :
  first_fibonacci k !! i = Some a ↔ a = fibonacci (S i) ∧ (i < k)%nat.
Proof.
  unfold first_fibonacci. rewrite list_lookup_fmap.
  destruct (seq 1 k !! i) as [j|] eqn:Hj; simpl.
  - apply lookup_seq in Hj as [-> Hlt]. split.
    + by intros [= <-].
    + by intros [-> _].
  - split; [done|]. intros [_ Hlt]. apply lookup_seq_lt with (j := 1%nat) in Hlt. congruence.
Qed.

Lemma first_fibonacci_prefix (k k' : nat) :
  (k ≤ k')%nat → first_fibonacci k `prefix_of` first_fibonacci k'.
Proof.
  intros Hle. exists (fibonacci <$> seq (1 + k) (k' - k)).
  unfold first_fibonacci. rewrite <-fmap_app, <-seq_app. do 2 f_equal. lia.
Qed.

Lemma fibonacci_pos (k : nat) : 0 < fibonacci (S k) ∧ 0 < fibonacci (S (S k)).
Proof.
  induction k as [|k [IH1 IH2]]; [by compute|].
  split; [done|]. rewrite fibonacci_step. lia.
Qed.

Lemma fibonacci_outgrows (j : nat) :
  8 + Z.of_nat j ≤ fibonacci (6 + j) ∧ 13 + Z.of_nat j ≤ fibonacci (7 + j).
Proof.
  induction j as [|j [IH1 IH2]]; [by compute|].
  split.
  - replace (6 + S j)%nat with (7 + j)%nat by lia. lia.
  - replace (7 + S j)%nat with (S (S (6 + j))) by lia.
    rewrite fibonacci_step. replace (S (6 + j)) with (7 + j)%nat by lia. lia.
Qed.

End series_facts.

(** X8. [fib2(n)] returns [n] numbers when [n >= 1] and one number
    otherwise, and the list always starts with 1. *)
Theorem fib2_length (n : Z) (out : list Z) :
  ∃ r, fib2 n out = Ok r out
       ∧ Z.of_nat (length r) = Z.max n 1
       ∧ r !! 0%nat = Some 1.
Proof.
  eexists. split; [apply fib2_ok|]. split.
  - unfold first_fibonacci. rewrite length_fmap, length_seq. lia.
  - apply first_fibonacci_lookup. split; [reflexivity | lia].
Qed.

(** X9. In the list returned by [fib2] (and printed by [fib]) the second
    number, when there is one, is 1 and every later number is the sum of
    the two before it. *)
Theorem fib2_recurrence (n : Z) (out : list Z) :
  ∃ r, fib2 n out = Ok r out
       ∧ fib n out = Ok tt (out ++ r)
       ∧ (∀ b, r !! 1%nat = Some b → b = 1)
       ∧ (∀ (i : nat) a b c,
            r !! i = Some a → r !! S i = Some b → r !! S (S i) = Some c → c = a + b).
Proof.
  eexists. split; [apply fib2_ok|]. split; [apply fib_ok|]. split.
  - intros b [-> _]%first_fibonacci_lookup. reflexivity.
  - intros i a b c [-> _]%first_fibonacci_lookup [-> _]%first_fibonacci_lookup
      [-> _]%first_fibonacci_lookup.
    apply fibonacci_step.
Qed.

(** X10. A larger argument only extends the series: for [n <= m] the list
    [fib2(n)] is a prefix of the list [fib2(m)]. *)
Theorem fib2_prefix (n m : Z) (out : list Z) :
  n ≤ m →
  ∃ r r', fib2 n out = Ok r out ∧ fib2 m out = Ok r' out ∧ r `prefix_of` r'.
Proof.
  intros Hnm. do 2 eexists. split; [apply fib2_ok|]. split; [apply fib2_ok|].
  apply first_fibonacci_prefix. lia.
Qed.

Lemma fib2_prefix_witness :
  3 ≤ 5
  ∧ ∃ r r', fib2 3 ([] : list Z) = Ok r [] ∧ fib2 5 ([] : list Z) = Ok r' []
            ∧ r `prefix_of` r'.
Proof.
  split; [lia|]. apply (fib2_prefix 3 5 []). lia.
Defined.

(** X11. The argument of [fib] and [fib2] counts the terms, it does not
    bound them: the numbers produced are all at most [n] exactly when
    [1 <= n <= 5]. *)
Theorem fib2_not_up_to_n (n : Z) (out : list Z) :
  ∃ r, fib2 n out = Ok r out
       ∧ fib n out = Ok tt (out ++ r)
       ∧ (Forall (λ v, v ≤ n) r ↔ 1 ≤ n ≤ 5).
Proof.
  eexists. split; [apply fib2_ok|]. split; [apply fib_ok|].
  split.
  - intros Hall. rewrite Forall_forall in Hall.
    destruct (decide (n < 1)) as [Hlow|Hlow].
    { assert (1 ∈ first_fibonacci (Z.to_nat (n `max` 1))) as Hin; [|apply Hall in Hin; lia].
      apply list_elem_of_lookup. exists 0%nat.
      apply first_fibonacci_lookup. split; [reflexivity | lia]. }
    destruct (decide (n ≤ 5)) as [|Hhigh]; [lia|]. exfalso.
    assert (fibonacci (Z.to_nat n) ∈ first_fibonacci (Z.to_nat (n `max` 1))) as Hin.
    { apply list_elem_of_lookup. exists (Z.to_nat n - 1)%nat.
      apply first_fibonacci_lookup. split; [f_equal; lia | lia]. }
    apply Hall in Hin.
    destruct (fibonacci_outgrows (Z.to_nat n - 6)) as [Hbig _].
    replace (6 + (Z.to_nat n - 6))%nat with (Z.to_nat n) in Hbig by lia. lia.
  - intros Hn.
    assert (n = 1 ∨ n = 2 ∨ n = 3 ∨ n = 4 ∨ n = 5) as Hcases by lia.
    destruct Hcases as [->|[->|[->|[->| ->]]]]; vm_compute; repeat constructor;
      intros; discriminate.
Qed.

(** ** The two timed ways of building the squares *)

(** X12. The timed loop and the timed list comprehension build the same
    list: starting from [L = []], the loop [for n in range(stop):
    L.append(n ** 2)] leaves in [L] exactly [[n ** 2 for n in range(stop)]],
    which has [stop] elements, the one at position [n] being [n * n]. *)
Theorem append_squares_is_comprehension (stop : nat)
    (h : gmap ref (list Z)) (L : ref) :
  h !! L = Some [] →
  append_squares stop L h = Ok tt (<[L := squares stop]> h)
  ∧ length (squares stop) = stop
  ∧ (∀ n : nat, (n < stop)%nat → squares stop !! n = Some (Z.of_nat n * Z.of_nat n)).
Proof.
  intros HL. split; [|split].
  - unfold append_squares.
    rewrite (for_each_append (λ n : nat, Z.of_nat n ^ 2) (range stop) h L []) by done.
    reflexivity.
  - unfold squares, range. by rewrite length_fmap, length_seq.
  - intros n Hn. unfold squares, range.
    rewrite list_lookup_fmap, lookup_seq_lt by done. simpl. f_equal. lia.
Qed.

Lemma append_squares_is_comprehension_witness :
  let h : gmap ref (list Z) := {[ 0%nat := [] ]} in
  h !! 0%nat = Some []
  ∧ append_squares 1000 0%nat h = Ok tt (<[0%nat := squares 1000]> h)
  ∧ length (squares 1000) = 1000%nat
  ∧ (∀ n : nat, (n < 1000)%nat → squares 1000 !! n = Some (Z.of_nat n * Z.of_nat n)).
Proof.
  intros h. split; [reflexivity|].
  apply (append_squares_is_comprehension 1000 h 0%nat). reflexivity.
Defined.

(** X13. The timed body does not reset [L]: executed [k] times in a row on
    the same list, it leaves the former contents followed by [k] copies of
    the squares, [k * stop] new elements. *)
Theorem append_squares_accumulates (stop k : nat)
    (h : gmap ref (list Z)) (L : ref) (xs : list Z) :
  h !! L = Some xs →
  repeat_body k (append_squares stop L) h
  = Ok tt (<[L := xs ++ concat (replicate k (squares stop))]> h)
  ∧ length (xs ++ concat (replicate k (squares stop))) = (length xs + k * stop)%nat.
Proof.
  intros HL. split.
  - revert h xs HL. induction k as [|k IH]; intros h xs HL; simpl.
    + unfold ret. by rewrite app_nil_r, insert_id.
    + unfold bind, append_squares.
      rewrite (for_each_append (λ n : nat, Z.of_nat n ^ 2) (range stop) h L xs) by done.
      fold (squares stop). fold (append_squares stop L).
      rewrite (IH _ (xs ++ squares stop)) by apply lookup_insert_eq.
      by rewrite insert_insert_eq, app_assoc.
  - rewrite length_app. f_equal.
    induction k as [|k IH]; simpl; [done|].
    rewrite length_app, IH. unfold squares, range.
    by rewrite length_fmap, length_seq.
Qed.

Lemma append_squares_accumulates_witness :
  let h : gmap ref (list Z) := {[ 0%nat := [] ]} in
  h !! 0%nat = Some []
  ∧ repeat_body 3 (append_squares 4 0%nat) h
    = Ok tt (<[0%nat := [] ++ concat (replicate 3 (squares 4))]> h)
  ∧ length ([] ++ concat (replicate 3 (squares 4))) = (length ([] : list Z) + 3 * 4)%nat.
Proof.
  intros h. split; [reflexivity|].
  apply (append_squares_accumulates 4 3 h 0%nat []). reflexivity.
Defined.

(** * Further properties of the ensemble notebook *)

(** ** The split, by row indices *)

Section index_facts.
Import Split.

Lemma rows_lookup {A} (X : list A) (idx : list nat) (i : nat) :
  Forall (λ j, (j < length X)%nat) idx →
  rows X idx !! i = idx !! i ≫= (λ j, X !! j).
Proof.
  intros Hall. revert i. induction Hall as [|j idx Hj _ IH]; intros i; [done|].
  destruct (lookup_lt_is_Some_2 X j Hj) as [x Hx].
  unfold rows in *. cbn [omap list_omap]. rewrite Hx.
  destruct i as [|i]; simpl; [by rewrite Hx | apply IH].
Qed.

End index_facts.

(** X17. The split selects rows by position: there are two lists of row
    indices, without repetition and with no index in common, that together
    are all the indices of the data, and the training and test parts of
    both [X] and [y] are the rows at these indices; so every row is in
    exactly one part and each row stays with its own label. *)
Theorem notebook_split_by_index {rng : Type}
    (seeded : Z → rng) (permutation : rng → nat → list nat)
    {A B : Type} (X : list A) (y : list B) (global : rng) :
  (∀ g n, permutation g n ≡ₚ seq 0 n) →
  length y = length X →
  (2 ≤ length X)%nat →
  ∃ ind_train ind_test,
    Split.notebook_split seeded permutation X y global
      = inr (Split.rows X ind_train, Split.rows X ind_test,
             Split.rows y ind_train, Split.rows y ind_test)
    ∧ NoDup (ind_train ++ ind_test)
    ∧ ind_train ++ ind_test ≡ₚ seq 0 (length X)
    ∧ (∀ (i : nat) a b,
         Split.rows X ind_train !! i = Some a → Split.rows y ind_train !! i = Some b →
         ∃ j, ind_train !! i = Some j ∧ X !! j = Some a ∧ y !! j = Some b)
    ∧ (∀ (i : nat) a b,
         Split.rows X ind_test !! i = Some a → Split.rows y ind_test !! i = Some b →
         ∃ j, ind_test !! i = Some j ∧ X !! j = Some a ∧ y !! j = Some b).
Proof.
  intros Hperm Hy Hn.
  pose proof (n_test_le (length X)) as Hle.
  pose proof (n_test_fifth (length X)) as Hfifth.
  set (n_test := Split.n_test_of (1 # 5) (length X)) in *.
  set (perm := permutation (seeded 42) (length X)) in *.
  assert (length X - n_test ≠ 0)%nat as Htrain.
  { assert (Z.of_nat n_test < Z.of_nat (length X)); [|lia].
    rewrite Hfifth, Z2Nat.id by (apply Z.div_pos; lia).
    Z.div_mod_to_equations. lia. }
  assert (length perm = length X) as Hlen.
  { unfold perm. by rewrite Hperm, length_seq. }
  assert (take (length X - n_test) (drop n_test perm) = drop n_test perm) as Htake.
  { apply take_ge. rewrite length_drop. lia. }
  assert (drop n_test perm ++ take n_test perm ≡ₚ seq 0 (length X)) as Hall.
  { rewrite (Permutation_app_comm (drop n_test perm)), take_drop. apply Hperm. }
  assert (Forall (λ j, (j < length X)%nat) perm) as Hrange.
  { unfold perm. rewrite Hperm. apply Forall_seq. intros; lia. }
  exists (drop n_test perm), (take n_test perm).
  split.
  { unfold Split.notebook_split, Split.train_test_split.
    rewrite decide_False by (intros Hne; by apply Hne).
    fold n_test. rewrite decide_False by done. fold perm. by rewrite Htake. }
  split; [rewrite Hall; apply NoDup_seq|]. split; [done|].
  assert (∀ idx (i : nat) a b,
            Forall (λ j, (j < length X)%nat) idx →
            Split.rows X idx !! i = Some a → Split.rows y idx !! i = Some b →
            ∃ j, idx !! i = Some j ∧ X !! j = Some a ∧ y !! j = Some b) as Hpair.
  { intros idx i a b Hidx Ha Hb.
    rewrite rows_lookup in Ha by done.
    rewrite rows_lookup in Hb by by rewrite Hy.
    destruct (idx !! i) as [j|]; [|done]. exists j. done. }
  split; intros i a b; apply Hpair; [by apply Forall_drop | by apply Forall_take].
Qed.

Lemma notebook_split_by_index_witness :
  let X : list Z := [10; 11; 12; 13; 14; 15; 16; 17; 18; 19] in
  let y : list Z := [0; 1; 0; 1; 0; 1; 0; 1; 0; 1] in
  let permutation : unit → nat → list nat := λ _ n, seq 0 n in
  ((∀ g n, permutation g n ≡ₚ seq 0 n) ∧ length y = length X ∧ (2 ≤ length X)%nat)
  ∧ ∃ ind_train ind_test,
      Split.notebook_split (λ _, tt) permutation X y tt
        = inr (Split.rows X ind_train, Split.rows X ind_test,
               Split.rows y ind_train, Split.rows y ind_test)
      ∧ NoDup (ind_train ++ ind_test)
      ∧ ind_train ++ ind_test ≡ₚ seq 0 (length X)
      ∧ (∀ (i : nat) a b,
           Split.rows X ind_train !! i = Some a → Split.rows y ind_train !! i = Some b →
           ∃ j, ind_train !! i = Some j ∧ X !! j = Some a ∧ y !! j = Some b)
      ∧ (∀ (i : nat) a b,
           Split.rows X ind_test !! i = Some a → Split.rows y ind_test !! i = Some b →
           ∃ j, ind_test !! i = Some j ∧ X !! j = Some a ∧ y !! j = Some b).
Proof.
  intros X y permutation.
  split; [split; [intros; reflexivity | split; [reflexivity | simpl; lia]]|].
  apply (notebook_split_by_index (λ _, tt) permutation X y tt);
    [intros; reflexivity | reflexivity | simpl; lia].
Defined.

(** ** Complete runs *)


(** X18. When both data sets are present and parse, and no library call
    raises, the ensemble notebook runs to its end: it reads the forest
    file and then the MNIST file, each exactly once, writes no file and
    leaves the file system as it was. *)
Theorem ensemble_complete_run (parse_error : string → option exn)
    (lib_error : nat → string → option exn) (python : interpreter)
    (w : world) (forest mnist : string) :
  files w !! forest_csv = Some forest →
  files w !! mnist_csv = Some mnist →
  parse_error forest = None →
  parse_error mnist = None →
  (∀ cell callee, lib_error cell callee = None) →
  ∃ evs, run_notebook parse_error lib_error python ensemble w
           = Ok tt (World (files w) (trace w ++ evs))
         ∧ files_read evs = [forest_csv; mnist_csv]
         ∧ files_written evs = [].
Proof.
  intros Hf Hm Hpf Hpm Hlib.
  exists (concat (stmt_events <$> concat ensemble)).
  split; [|split; reflexivity].
  apply run_notebook_no_failure. unfold ensemble.
  repeat match goal with
         | |- Forall _ _ => constructor
         | |- no_failure _ _ _ (LibCall _ _) => apply Hlib
         | |- no_failure _ _ _ (ReadCsv forest_csv) => by exists forest
         | |- no_failure _ _ _ (ReadCsv mnist_csv) => by exists mnist
         | |- no_failure _ _ _ _ => exact I
         end.
Qed.

Lemma ensemble_complete_run_witness :
  let w := World {[ forest_csv := "Id,Cover_Type"; mnist_csv := "label,1x1" ]}%string [] in
  let parse_error : string → option exn := λ _, None in
  let lib_error : nat → string → option exn := λ _ _, None in
  let python := Interpreter "cpython-39" (λ _ _, false) (λ _, true) (λ text _, text) in
  (files w !! forest_csv = Some "Id,Cover_Type"%string
   ∧ files w !! mnist_csv = Some "label,1x1"%string
   ∧ parse_error "Id,Cover_Type"%string = None
   ∧ parse_error "label,1x1"%string = None
   ∧ (∀ cell callee, lib_error cell callee = None))
  ∧ ∃ evs, run_notebook parse_error lib_error python ensemble w
             = Ok tt (World (files w) (trace w ++ evs))
           ∧ files_read evs = [forest_csv; mnist_csv]
           ∧ files_written evs = [].
Proof.
  intros w parse_error lib_error python.
  split; [repeat split; vm_compute; reflexivity|].
  apply (ensemble_complete_run parse_error lib_error python w
           "Id,Cover_Type"%string "label,1x1"%string);
    first [reflexivity | vm_compute; reflexivity | intros; reflexivity].
Defined.



(** X20. When the forest file is fine and no library call raises but the
    MNIST file is missing, the run of the ensemble notebook ends at the
    cell that loads MNIST with the [FileNotFoundError] of [read_csv]: the
    whole forest part has been carried out, the forest file is the only
    file read, and nothing is written. *)
Theorem ensemble_stops_at_missing_mnist (parse_error : string → option exn)
    (lib_error : nat → string → option exn) (python : interpreter)
    (w : world) (forest : string) :
  files w !! forest_csv = Some forest →
  files w !! mnist_csv = None →
  parse_error forest = None →
  (∀ cell callee, lib_error cell callee = None) →
  ∃ evs, run_notebook parse_error lib_error python ensemble w
           = Raise (FileNotFoundError mnist_csv) (World (files w) (trace w ++ evs))
         ∧ evs = concat (stmt_events <$> concat (take 28 ensemble))
         ∧ files_read evs = [forest_csv]
         ∧ files_written evs = [].
Proof.
  intros Hf Hm Hpf Hlib.
  exists (concat (stmt_events <$> concat (take 28 ensemble))).
  split; [|split; [reflexivity | split; reflexivity]].
  rewrite <-(take_drop 28 ensemble) at 1.
  unfold run_notebook. rewrite for_each_app.
  fold (run_notebook parse_error lib_error python (take 28 ensemble)).
  rewrite run_notebook_no_failure.
  - apply for_each_cons_raise. apply for_each_cons_raise.
    simpl. unfold read_csv, bind, read_file. simpl. by rewrite Hm.
  - unfold ensemble. cbn [take].
    repeat match goal with
           | |- Forall _ _ => constructor
           | |- no_failure _ _ _ (LibCall _ _) => apply Hlib
           | |- no_failure _ _ _ (ReadCsv forest_csv) => by exists forest
           | |- no_failure _ _ _ _ => exact I
           end.
Qed.

Lemma ensemble_stops_at_missing_mnist_witness :
  let w := World {[ forest_csv := "Id,Cover_Type" ]}%string [] in
  let parse_error : string → option exn := λ _, None in
  let lib_error : nat → string → option exn := λ _ _, None in
  let python := Interpreter "cpython-39" (λ _ _, false) (λ _, true) (λ text _, text) in
  (files w !! forest_csv = Some "Id,Cover_Type"%string
   ∧ files w !! mnist_csv = None
   ∧ parse_error "Id,Cover_Type"%string = None
   ∧ (∀ cell callee, lib_error cell callee = None))
  ∧ ∃ evs, run_notebook parse_error lib_error python ensemble w
             = Raise (FileNotFoundError mnist_csv) (World (files w) (trace w ++ evs))
           ∧ evs = concat (stmt_events <$> concat (take 28 ensemble))
           ∧ files_read evs = [forest_csv]
           ∧ files_written evs = [].
Proof.
  intros w parse_error lib_error python.
  split; [repeat split; vm_compute; reflexivity|].
  apply (ensemble_stops_at_missing_mnist parse_error lib_error python w "Id,Cover_Type"%string);
    first [reflexivity | vm_compute; reflexivity | intros; reflexivity].
Defined.

(** ** Tables: features, labels, rows *)

Section frame_facts.
Import Frames.
Context {V : Type}.
Implicit Types (df : frame V) (row : list V) (cols labels : list string).

Lemma drop_from_row_length labels cols row :
  length row = length cols →
  length (drop_from_row labels cols row) = length (filter (λ c, c ∉ labels) cols).
Proof.
  unfold drop_from_row. rewrite length_fmap.
  revert row. induction cols as [|c cols IH]; intros [|v row]; simpl; try done.
  intros [= Hlen]. rewrite !filter_cons. simpl.
  destruct (decide (c ∉ labels)); simpl; by rewrite IH.
Qed.

Lemma position_Some label cols (j : nat) :
  position label cols = Some j → cols !! j = Some label.
Proof.
  revert j. induction cols as [|c cols IH]; intros j; simpl; [done|].
  destruct (decide (c = label)) as [->|Hne].
  - by intros [= <-].
  - destruct (position label cols) as [j'|]; simpl; [|done].
    intros [= <-]. simpl. by apply IH.
Qed.

Lemma position_elem_of label cols :
  label ∈ cols → ∃ j, position label cols = Some j.
Proof.
  induction cols as [|c cols IH]; simpl; intros Hin.
  - by apply elem_of_nil in Hin.
  - destruct (decide (c = label)) as [->|Hne]; [by exists O|].
    apply elem_of_cons in Hin as [?|Hin]; [congruence|].
    destruct (IH Hin) as [j ->]. by exists (S j).
Qed.

Lemma position_None label cols : position label cols = None → label ∉ cols.
Proof.
  intros Hnone Hin. apply position_elem_of in Hin as [j Hj]. congruence.
Qed.

Lemma column_lookup (j : nat) (ncols : nat) (rows : list (list V)) :
  (j < ncols)%nat → Forall (λ row, length row = ncols) rows →
  length (omap (λ row, row !! j) rows) = length rows
  ∧ ∀ (i : nat) row v, rows !! i = Some row →
      omap (λ row, row !! j) rows !! i = Some v → row !! j = Some v.
Proof.
  intros Hj. induction 1 as [|r rows Hr _ [IHlen IH]]; [done|].
  destruct (lookup_lt_is_Some_2 r j) as [x Hx]; [lia|].
  cbn [omap list_omap]. rewrite Hx. split.
  - cbn [length]. f_equal. exact IHlen.
  - intros [|i] row v.
    + cbn. by intros [= <-] [= <-].
    + apply IH.
Qed.

Lemma two_columns_fewer (a b : string) cols :
  a ≠ b → NoDup cols → a ∈ cols → b ∈ cols →
  (length (filter (λ c, c ∉ [a; b]) cols) + 2 = length cols)%nat.
Proof.
  intros Hab Hnd Ha Hb.
  assert (filter (λ c : string, ¬ (c ∉ [a; b])) cols ≡ₚ [a; b]) as Hin.
  { apply NoDup_Permutation.
    - by apply NoDup_filter.
    - apply NoDup_cons. split; [by rewrite list_elem_of_singleton|].
      apply NoDup_singleton.
    - intros c. rewrite list_elem_of_filter. split.
      + intros [Hc _]. by destruct (decide (c ∈ [a; b])).
      + intros Hc. split; [tauto|].
        apply elem_of_cons in Hc as [->|Hc]; [done|].
        by apply list_elem_of_singleton in Hc as ->. }
  pose proof (filter_app_complement (λ c : string, c ∉ [a; b]) cols) as Hsplit.
  apply Permutation_length in Hsplit. rewrite length_app, Hin in Hsplit.
  simpl in Hsplit. lia.
Qed.

Lemma features_and_labels_ok dropped label df :
  well_formed df →
  (∀ c, c ∈ dropped → c ∈ columns df) →
  label ∈ columns df →
  ∃ j, position label (columns df) = Some j
       ∧ features_and_labels dropped label df
         = inr (drop_from_row dropped (columns df) <$> table df,
                omap (λ row, row !! j) (table df)).
Proof.
  intros [Hnd Hrows] Hdrop Hlabel.
  destruct (position_elem_of label (columns df) Hlabel) as [j Hj]. exists j.
  split; [done|].
  unfold features_and_labels, drop_columns, column_values. rewrite Hj.
  destruct (filter (λ c, c ∉ columns df) dropped) as [|c rest] eqn:Hmiss; [done|].
  assert (c ∈ filter (λ c, c ∉ columns df) dropped) as Hc by (rewrite Hmiss; left).
  apply list_elem_of_filter in Hc as [Hc1 Hc2]. by apply Hdrop in Hc2.
Qed.

End frame_facts.

Section split_run_facts.
Context {rng : Type} (seeded : Z → rng) (permutation : rng → nat → list nat).
Hypothesis permutation_perm : ∀ g n, permutation g n ≡ₚ seq 0 n.

(** With at least two rows and as many labels as rows, the split returns. *)
Lemma notebook_split_runs {A B} (X : list A) (y : list B) (global : rng) :
  length y = length X → (2 ≤ length X)%nat →
  ∃ X_train X_test y_train y_test,
    Split.notebook_split seeded permutation X y global
      = inr (X_train, X_test, y_train, y_test)
    ∧ Z.of_nat (length X_test) = (Z.of_nat (length X) + 4) / 5
    ∧ (length X_train = length X - length X_test)%nat
    ∧ length y_test = length X_test
    ∧ length y_train = length X_train.
Proof.
  intros Hy Hn.
  pose proof (n_test_le (length X)) as Hle.
  pose proof (n_test_fifth (length X)) as Hfifth.
  destruct (split_rows permutation permutation_perm X (seeded 42) (length X)
              (Split.n_test_of (1 # 5) (length X)) eq_refl Hle) as (HXte & HXtr & _).
  destruct (split_rows permutation permutation_perm y (seeded 42) (length X)
              (Split.n_test_of (1 # 5) (length X)) Hy Hle) as (Hyte & Hytr & _).
  set (n_test := Split.n_test_of (1 # 5) (length X)) in *.
  assert (Z.of_nat n_test = (Z.of_nat (length X) + 4) / 5) as Htest.
  { rewrite Hfifth. apply Z2Nat.id. apply Z.div_pos; lia. }
  assert (length X - n_test ≠ 0)%nat as Htrain.
  { assert (Z.of_nat n_test < Z.of_nat (length X)); [|lia].
    rewrite Htest. Z.div_mod_to_equations. lia. }
  do 4 eexists. split.
  { unfold Split.notebook_split, Split.train_test_split.
    rewrite decide_False by (intros Hne; by apply Hne).
    fold n_test. by rewrite decide_False. }
  rewrite HXte, HXtr, Hyte, Hytr. done.
Qed.

End split_run_facts.

(** X21. From a well-formed forest table that has the columns [Id] and
    [Cover_Type], the notebook obtains a feature matrix [X] and a label
    vector [y] with one entry for each row of the table; a row of [X] has
    two values fewer than the table has columns, and [y] holds, row by
    row, the value of the column [Cover_Type]. With at least two rows the
    split that follows returns, the test part getting a fifth of the rows
    (rounded up). *)
Theorem forest_features_and_split {V rng : Type}
    (seeded : Z → rng) (permutation : rng → nat → list nat)
    (forest : Frames.frame V) (global : rng) :
  (∀ g n, permutation g n ≡ₚ seq 0 n) →
  Frames.well_formed forest →
  "Id"%string ∈ Frames.columns forest →
  "Cover_Type"%string ∈ Frames.columns forest →
  (2 ≤ length (Frames.table forest))%nat →
  ∃ X y X_train X_test y_train y_test,
    Frames.forest_Xy forest = inr (X, y)
    ∧ length X = length (Frames.table forest)
    ∧ length y = length (Frames.table forest)
    ∧ Forall (λ row, (length row + 2 = length (Frames.columns forest))%nat) X
    ∧ (∀ (i : nat) row v,
         Frames.table forest !! i = Some row → y !! i = Some v →
         ∃ j : nat, Frames.columns forest !! j = Some "Cover_Type"%string
                    ∧ row !! j = Some v)
    ∧ Frames.forest_split seeded permutation forest global
      = inr (X_train, X_test, y_train, y_test)
    ∧ Z.of_nat (length X_test) = (Z.of_nat (length X) + 4) / 5
    ∧ (length X_train = length X - length X_test)%nat
    ∧ length y_test = length X_test
    ∧ length y_train = length X_train.
Proof.
  intros Hperm Hwf Hid Hct Hrows.
  destruct (features_and_labels_ok ["Id"; "Cover_Type"]%string "Cover_Type"%string
              forest Hwf) as (j & Hj & HXy); [|done|].
  { intros c Hc. apply elem_of_cons in Hc as [->|Hc]; [done|].
    by apply list_elem_of_singleton in Hc as ->. }
  destruct Hwf as [Hnd Hwf].
  pose proof (position_Some _ _ _ Hj) as Hcol.
  destruct (column_lookup j (length (Frames.columns forest)) (Frames.table forest))
    as [Hylen Hyval]; [by eapply lookup_lt_Some | done |].
  set (X := Frames.drop_from_row ["Id"; "Cover_Type"]%string (Frames.columns forest)
              <$> Frames.table forest) in *.
  set (y := omap (λ row : list V, row !! j) (Frames.table forest)) in *.
  assert (length X = length (Frames.table forest)) as HXlen by apply length_fmap.
  destruct (notebook_split_runs seeded permutation Hperm X y global)
    as (X_train & X_test & y_train & y_test & Hsplit & Hsizes); [congruence | lia |].
  exists X, y, X_train, X_test, y_train, y_test.
  split; [done|]. split; [done|]. split; [done|].
  split.
  { apply Forall_fmap. eapply Forall_impl; [exact Hwf|]. intros row Hrow. simpl.
    rewrite drop_from_row_length by done.
    by apply two_columns_fewer. }
  split.
  { intros i row v Hrow Hv. exists j. split; [done|]. by eapply Hyval. }
  split; [|done].
  unfold Frames.forest_split. unfold Frames.forest_Xy in *. by rewrite HXy.
Qed.

Lemma forest_features_and_split_witness :
  let forest : Frames.frame Z :=
    Frames.Frame ["Id"; "Elevation"; "Cover_Type"]%string
                 [[1; 2596; 5]; [2; 2590; 5]; [3; 2804; 2]] in
  let permutation : unit → nat → list nat := λ _ n, seq 0 n in
  ((∀ g n, permutation g n ≡ₚ seq 0 n)
   ∧ Frames.well_formed forest
   ∧ "Id"%string ∈ Frames.columns forest
   ∧ "Cover_Type"%string ∈ Frames.columns forest
   ∧ (2 ≤ length (Frames.table forest))%nat)
  ∧ ∃ X y X_train X_test y_train y_test,
      Frames.forest_Xy forest = inr (X, y)
      ∧ length X = length (Frames.table forest)
      ∧ length y = length (Frames.table forest)
      ∧ Forall (λ row, (length row + 2 = length (Frames.columns forest))%nat) X
      ∧ (∀ (i : nat) row v,
           Frames.table forest !! i = Some row → y !! i = Some v →
           ∃ j : nat, Frames.columns forest !! j = Some "Cover_Type"%string
                      ∧ row !! j = Some v)
      ∧ Frames.forest_split (λ _, tt) permutation forest tt
        = inr (X_train, X_test, y_train, y_test)
      ∧ Z.of_nat (length X_test) = (Z.of_nat (length X) + 4) / 5
      ∧ (length X_train = length X - length X_test)%nat
      ∧ length y_test = length X_test
      ∧ length y_train = length X_train.
Proof.
  intros forest permutation.
  assert (Frames.well_formed forest) as Hwf.
  { split; [|repeat constructor].
    by apply (bool_decide_unpack (NoDup (Frames.columns forest))). }
  assert ("Id"%string ∈ Frames.columns forest) as Hid by (simpl; left).
  assert ("Cover_Type"%string ∈ Frames.columns forest) as Hct by (simpl; do 2 right; left).
  split; [split; [intros; reflexivity | split; [exact Hwf | split; [exact Hid |
          split; [exact Hct | simpl; lia]]]]|].
  apply (forest_features_and_split (λ _, tt) permutation forest tt);
    [intros; reflexivity | exact Hwf | exact Hid | exact Hct | simpl; lia].
Defined.

(** ** Reshaping a row and showing the digits *)

Section digit_facts.
Import Frames.
Context {V : Type}.
Implicit Types (a row : list V) (df : frame V) (fig : list (nat * list (list V))).

Lemma chunks_spec (nrows ncols : nat) a :
  length a = (nrows * ncols)%nat →
  concat (chunks nrows ncols a) = a
  ∧ length (chunks nrows ncols a) = nrows
  ∧ ∀ i j : nat, (i < nrows)%nat → (j < ncols)%nat →
      chunks nrows ncols a !! i ≫= (λ r, r !! j) = a !! (ncols * i + j)%nat.
Proof.
  revert a. induction nrows as [|nrows IH]; intros a Hlen.
  - simpl in *. apply nil_length_inv in Hlen as ->. split; [done|]. split; [done|].
    intros; lia.
  - destruct (IH (drop ncols a)) as (Hcat & Hrows & Hcell).
    { rewrite length_drop. lia. }
    cbn [chunks]. split; [|split].
    + cbn [concat]. by rewrite Hcat, take_drop.
    + cbn [length]. by rewrite Hrows.
    + intros [|i] j Hi Hj.
      * cbn. rewrite lookup_take_lt by done. f_equal. lia.
      * cbn [lookup list_lookup]. cbn. rewrite Hcell by lia.
        rewrite lookup_drop. f_equal. lia.
Qed.

(** One digit: the place exists, the row is there and has the right size. *)
Lemma show_digits_loop df (ds : list nat) fig :
  Forall (λ d, (d < 64)%nat ∧ ∃ row, table df !! d = Some row ∧ length row = 784%nat) ds →
  for_each ds (λ digit_num,
    let* place := subplot 8 8 (digit_num + 1) in
    let* row := lift (iloc digit_num df) in
    let* grid_data := lift (reshape 28 28 row) in
    imshow place grid_data) fig
  = Ok tt (fig ++ omap (λ d, (λ row, ((d + 1)%nat, chunks 28 28 row)) <$> table df !! d) ds).
Proof.
  intros Hall. revert fig. induction Hall as [|d ds [Hd (row & Hrow & Hlen)] _ IH]; intros fig.
  - simpl. unfold ret. by rewrite app_nil_r.
  - rewrite (for_each_cons_ok _ _ _ _ (fig ++ [((d + 1)%nat, chunks 28 28 row)])).
    + rewrite IH. cbn [omap list_omap]. rewrite Hrow. simpl. by rewrite <-app_assoc.
    + unfold bind, subplot, iloc, reshape. rewrite Hrow.
      rewrite (decide_True (P := (1 ≤ d + 1 ≤ 8 * 8)%nat)) by lia.
      unfold ret. cbn [lift]. unfold ret.
      rewrite (decide_True (P := (length row = 28 * 28)%nat)) by (rewrite Hlen; reflexivity).
      reflexivity.
Qed.

End digit_facts.

Section digit_cell_facts.
Import Frames.
Context {V : Type}.
Implicit Types (df : frame V).

Lemma omap_lookup_total {A B} (f : A → option B) (ds : list A) (k : nat) :
  Forall (λ d, is_Some (f d)) ds → omap f ds !! k = ds !! k ≫= f.
Proof.
  intros Hall. revert k. induction Hall as [|d ds [b Hb] _ IH]; intros k; [done|].
  cbn [omap list_omap]. rewrite Hb. destruct k as [|k]; simpl; [done | apply IH].
Qed.

Lemma omap_length_total {A B} (f : A → option B) (ds : list A) :
  Forall (λ d, is_Some (f d)) ds → length (omap f ds) = length ds.
Proof.
  induction 1 as [|d ds [b Hb] _ IH]; [done|].
  cbn [omap list_omap]. rewrite Hb. simpl. by rewrite IH.
Qed.

(** The first [k] rows are fine. *)
Lemma first_rows_fine df (k : nat) :
  (k ≤ 64)%nat → (k ≤ length (table df))%nat →
  Forall (λ row, length row = 784%nat) (take k (table df)) →
  Forall (λ d, (d < 64)%nat ∧ ∃ row, table df !! d = Some row ∧ length row = 784%nat)
         (seq 0 k).
Proof.
  intros Hk Hlen Hrows. apply Forall_seq. intros d Hd. split; [lia|].
  destruct (lookup_lt_is_Some_2 (table df) d) as [row Hrow]; [lia|].
  exists row. split; [done|]. rewrite Forall_forall in Hrows. apply Hrows.
  apply list_elem_of_lookup. exists d. rewrite lookup_take_lt by lia. done.
Qed.

(** The digits drawn from the first [k] rows. *)
Lemma drawn_digits df (k : nat) :
  Forall (λ d, (d < 64)%nat ∧ ∃ row, table df !! d = Some row ∧ length row = 784%nat)
         (seq 0 k) →
  length (omap (λ d, (λ row, ((d + 1)%nat, chunks 28 28 row)) <$> table df !! d) (seq 0 k)) = k.
Proof.
  intros Hall. rewrite omap_length_total; [by rewrite length_seq|].
  eapply Forall_impl; [exact Hall|]. intros d (_ & row & -> & _). by eexists.
Qed.

(** The loop stops at the first digit that cannot be shown. *)
Lemma show_digits_stops df (k : nat) (e : exn) :
  (k < 64)%nat →
  Forall (λ d, (d < 64)%nat ∧ ∃ row, table df !! d = Some row ∧ length row = 784%nat)
         (seq 0 k) →
  (∀ fig, (let* row := lift (iloc k df) in
           let* grid_data := lift (reshape 28 28 row) in
           imshow (k + 1) grid_data) fig = Raise e fig) →
  ∃ fig, show_digits df [] = Raise e fig ∧ length fig = k.
Proof.
  intros Hk Hall Hfail.
  exists (omap (λ d, (λ row, ((d + 1)%nat, chunks 28 28 row)) <$> table df !! d) (seq 0 k)).
  split; [|by apply drawn_digits].
  unfold show_digits.
  replace 64%nat with (k + S (63 - k))%nat at 1 by lia.
  rewrite seq_app, for_each_app, (show_digits_loop df (seq 0 k) []) by done.
  cbn [seq]. apply for_each_cons_raise.
  unfold bind at 1. unfold subplot. rewrite decide_True by lia. unfold ret at 1.
  simpl. apply Hfail.
Qed.

End digit_cell_facts.

(** X23. When the table has at least 64 rows and its first 64 rows hold
    784 values each, the cell draws 64 images: the image number [k]
    (from 0) goes to place [k + 1] of the 8 by 8 grid and is row [k] of
    the table cut into 28 lines of 28 values, so that the value at line
    [i], column [j] of the image is the value at position [28 * i + j] of
    the row, and the lines put end to end give the row back. *)
Theorem show_digits_grid {V : Type} (mnist_X : Frames.frame V) :
  (64 ≤ length (Frames.table mnist_X))%nat →
  Forall (λ row, length row = 784%nat) (take 64 (Frames.table mnist_X)) →
  ∃ fig,
    Frames.show_digits mnist_X [] = Ok tt fig
    ∧ length fig = 64%nat
    ∧ ∀ k : nat, (k < 64)%nat →
        ∃ row grid,
          Frames.table mnist_X !! k = Some row
          ∧ fig !! k = Some ((k + 1)%nat, grid)
          ∧ concat grid = row
          ∧ length grid = 28%nat
          ∧ ∀ i j : nat, (i < 28)%nat → (j < 28)%nat →
              grid !! i ≫= (λ line, line !! j) = row !! (28 * i + j)%nat.
Proof.
  intros Hlen Hrows.
  pose proof (first_rows_fine mnist_X 64 (le_n _) Hlen Hrows) as Hall.
  exists (omap (λ d, (λ row, ((d + 1)%nat, Frames.chunks 28 28 row))
                       <$> Frames.table mnist_X !! d) (seq 0 64)).
  split.
  { rewrite <-(app_nil_l (omap _ _)).
    apply (show_digits_loop mnist_X (seq 0 64) []), Hall. }
  split; [apply drawn_digits; exact Hall|].
  intros k Hk. rewrite Forall_seq in Hall.
  destruct (Hall k) as (_ & row & Hrow & Hsize); [lia|].
  destruct (chunks_spec 28 28 row) as (Hcat & Hlines & Hcell); [by rewrite Hsize|].
  exists row, (Frames.chunks 28 28 row).
  split; [exact Hrow|]. split; [|split; [exact Hcat | split; [exact Hlines | exact Hcell]]].
  etrans.
  - apply omap_lookup_total.
    apply Forall_seq. intros d Hd. destruct (Hall d Hd) as (_ & r & -> & _). by eexists.
  - rewrite lookup_seq_lt by exact Hk. simpl. rewrite Hrow. reflexivity.
Qed.

Lemma show_digits_grid_witness :
  let mnist_X : Frames.frame Z :=
    Frames.Frame (replicate 784 "pixel"%string) (replicate 64 (replicate 784 0)) in
  ((64 ≤ length (Frames.table mnist_X))%nat
   ∧ Forall (λ row, length row = 784%nat) (take 64 (Frames.table mnist_X)))
  ∧ ∃ fig,
      Frames.show_digits mnist_X [] = Ok tt fig
      ∧ length fig = 64%nat
      ∧ ∀ k : nat, (k < 64)%nat →
          ∃ row grid,
            Frames.table mnist_X !! k = Some row
            ∧ fig !! k = Some ((k + 1)%nat, grid)
            ∧ concat grid = row
            ∧ length grid = 28%nat
            ∧ ∀ i j : nat, (i < 28)%nat → (j < 28)%nat →
                grid !! i ≫= (λ line, line !! j) = row !! (28 * i + j)%nat.
Proof.
  intros mnist_X.
  assert ((64 ≤ length (Frames.table mnist_X))%nat) as Hlen.
  { unfold mnist_X. cbn [Frames.table]. rewrite length_replicate. lia. }
  assert (Forall (λ row, length row = 784%nat) (take 64 (Frames.table mnist_X))) as Hrows.
  { apply Forall_take. unfold mnist_X. cbn [Frames.table].
    apply Forall_replicate, length_replicate. }
  split; [split; [exact Hlen | exact Hrows]|].
  apply (show_digits_grid mnist_X); [exact Hlen | exact Hrows].
Defined.

(** X24. With fewer than 64 rows (all of 784 values) the cell does not
    finish: it draws one image for each row there is and then raises the
    [IndexError] of [iloc] for the first row that is missing. *)
Theorem show_digits_too_few_rows {V : Type} (mnist_X : Frames.frame V) :
  (length (Frames.table mnist_X) < 64)%nat →
  Forall (λ row, length row = 784%nat) (Frames.table mnist_X) →
  ∃ fig,
    Frames.show_digits mnist_X [] = Raise Frames.IndexError fig
    ∧ length fig = length (Frames.table mnist_X).
Proof.
  intros Hlen Hrows.
  apply show_digits_stops; [done| |].
  - apply first_rows_fine; [lia | done | by apply Forall_take].
  - intros fig. unfold bind, Frames.iloc.
    rewrite (lookup_ge_None_2 (Frames.table mnist_X)) by done. reflexivity.
Qed.

Lemma show_digits_too_few_rows_witness :
  let mnist_X : Frames.frame Z :=
    Frames.Frame (replicate 784 "pixel"%string) (replicate 3 (replicate 784 0)) in
  ((length (Frames.table mnist_X) < 64)%nat
   ∧ Forall (λ row, length row = 784%nat) (Frames.table mnist_X))
  ∧ ∃ fig,
      Frames.show_digits mnist_X [] = Raise Frames.IndexError fig
      ∧ length fig = length (Frames.table mnist_X).
Proof.
  intros mnist_X.
  assert ((length (Frames.table mnist_X) < 64)%nat) as Hlen.
  { unfold mnist_X. simpl. lia. }
  assert (Forall (λ row, length row = 784%nat) (Frames.table mnist_X)) as Hrows.
  { unfold mnist_X. simpl. repeat constructor; apply length_replicate. }
  split; [split; [exact Hlen | exact Hrows]|].
  apply (show_digits_too_few_rows mnist_X); [exact Hlen | exact Hrows].
Defined.

(** X25. The cell needs a table of exactly 784 columns: on a well-formed
    table that has a row but another number of columns (one from which
    the label column has not been dropped, say) it raises the
    [ValueError] of [reshape] at the first row and draws nothing. *)
Theorem show_digits_bad_row {V : Type} (mnist_X : Frames.frame V) :
  Frames.well_formed mnist_X →
  Frames.table mnist_X ≠ [] →
  length (Frames.columns mnist_X) ≠ 784%nat →
  Frames.show_digits mnist_X []
  = Raise (Frames.ValueError "cannot reshape array") [].
Proof.
  intros [_ Hrows] Hrow Hcols.
  destruct (Frames.table mnist_X) as [|row rows] eqn:Htable; [done|].
  apply Forall_cons in Hrows as [Hlen _].
  unfold Frames.show_digits. cbn [seq]. apply for_each_cons_raise.
  unfold bind, Frames.subplot, Frames.iloc. rewrite Htable. simpl.
  unfold Frames.reshape. rewrite decide_False by (rewrite Hlen; exact Hcols).
  reflexivity.
Qed.

Lemma show_digits_bad_row_witness :
  let mnist : Frames.frame Z :=
    Frames.Frame ["label"; "1x1"; "1x2"]%string [[7; 0; 0]; [2; 0; 255]] in
  (Frames.well_formed mnist
   ∧ Frames.table mnist ≠ []
   ∧ length (Frames.columns mnist) ≠ 784%nat)
  ∧ Frames.show_digits mnist []
    = Raise (Frames.ValueError "cannot reshape array") [].
Proof.
  intros mnist.
  assert (Frames.well_formed mnist) as Hwf.
  { split; [|repeat constructor].
    by apply (bool_decide_unpack (NoDup (Frames.columns mnist))). }
  split; [split; [exact Hwf | split; [done | simpl; lia]]|].
  apply (show_digits_bad_row mnist); [exact Hwf | done | simpl; lia].
Defined.
